(** * egress-base: the web capture source and the upload sink

    A shallow embedding of [pkg/pipeline/source/web.go] and of
    [pkg/pipeline/sink/uploader/uploader.go].

    The source tree holds two revisions of [web.go].  They share
    [WebSource], [Close], [createPulseSink], [launchXvfb] and the signal
    logic of the console listener, and differ in [launchChrome] and in the
    retry loop of [NewWebSource]:

    - [Rev1] (web.go:62-118, 208-419): 3 attempts, 5s delay, a 60s
      navigation context, the browser cancel function is not called
      between attempts;
    - [Rev2] (web.go:494-556, 646-811): 5 attempts, 10s delay, network
      tracking enabled first, the browser cancel function is called
      after every failed attempt.

    External processes and libraries (pactl, Xvfb, chromedp, the file
    system) are a fake resource layer: an immutable environment says how
    each call answers and what the browser logs to its console, and a
    world records, in order, every resource that is created or destroyed.
    Logger calls of web.go are not modelled. *)

From Stdlib Require Import ZArith Lia Strings.Ascii Strings.Byte.
From stdpp Require Import base strings list gmap pretty.

Open Scope Z_scope.

(** ** Go prelude *)

Module Go.

(** Values of Go's [error] interface that come out of library calls. *)
Inductive goerror :=
| DeadlineExceeded                 (* context.DeadlineExceeded *)
| ErrorString (msg : string).      (* errors.New / fmt.Errorf values *)

(** [err.Error()] *)
Definition Error (e : goerror) : string :=
  match e with
  | DeadlineExceeded => "context deadline exceeded"
  | ErrorString msg => msg
  end.

(** [err == context.DeadlineExceeded] *)
Definition isDeadlineExceeded (e : goerror) : bool :=
  match e with
  | DeadlineExceeded => true
  | ErrorString _ => false
  end.

(** [strings.HasPrefix(s, prefix)] *)
Definition HasPrefix (s pre : string) : bool := String.prefix pre s.

Fixpoint containsChar (c : ascii) (cutset : string) : bool :=
  match cutset with
  | EmptyString => false
  | String d rest => if Ascii.eqb c d then true else containsChar c rest
  end.

(** [strings.TrimRight(s, cutset)]: drops every trailing character that
    belongs to [cutset]. *)
Fixpoint TrimRight (s cutset : string) : string :=
  match s with
  | EmptyString => EmptyString
  | String c rest =>
      match TrimRight rest cutset with
      | EmptyString =>
          if containsChar c cutset then EmptyString else String c EmptyString
      | r => String c r
      end
  end.

(** [time.Duration] counts nanoseconds. *)
Definition Millisecond : Z := 1000000.
Definition Second : Z := 1000 * Millisecond.

(** A [chan struct{}] on which nothing is ever sent: it is nil, open, or
    closed.  The channels of a [WebSource] are reachable only through
    the controller, so the state of the channel object is kept in the
    field that references it. *)
Inductive chan := ChNil | ChOpen | ChClosed.

(** [make(chan struct{})] *)
Definition make_chan : chan := ChOpen.

(** [close(c)]: panics ([None]) on a nil channel and on a closed one. *)
Definition close (c : chan) : option chan :=
  match c with
  | ChOpen => Some ChClosed
  | ChNil | ChClosed => None
  end.

(** Whether [<-c] completes at once: only a closed channel is ready; an
    open one waits for the close and a nil one blocks for ever. *)
Definition recv_ready (c : chan) : bool :=
  match c with
  | ChClosed => true
  | ChNil | ChOpen => false
  end.

(** [c != nil] *)
Definition non_nil (c : chan) : bool :=
  match c with
  | ChNil => false
  | ChOpen | ChClosed => true
  end.

End Go.

(** ** pkg/errors *)

Module Errors.
Import Go.

(** Modelled from the spec: the package [pkg/errors] is not among the
    sources; web.go calls its constructors [ErrProcessFailed],
    [ErrChromeFailedToStart] and [ErrPageLoadFailed], and the error
    taxonomy of the specification adds [ExhaustedRetries(lastError)].
    [Lib] is a library error returned as it is. *)
Inductive error :=
| Lib (e : goerror)
| ErrProcessFailed (process : string) (cause : goerror)
| ErrChromeFailedToStart (cause : goerror)
| ErrPageLoadFailed (reason : string)
| ErrExhaustedRetries (last : error).

Definition isExhaustedRetries (e : error) : bool :=
  match e with
  | ErrExhaustedRetries _ => true
  | _ => false
  end.

End Errors.

(** ** pkg/pipeline/source/web.go: what both revisions share *)

Module Source.
Import Go Errors.

Definition startRecordingLog : string := "START_RECORDING".
Definition endRecordingLog : string := "END_RECORDING".
Definition chromeFailedToStart : string := "chrome failed to start:".
Definition chromeTimeout : Z := Second * 45.

Definition newline : string := String (ascii_of_nat 10) EmptyString.

Record EgressInfo := { EgressId : string }.

(** The fields of [config.PipelineConfig] that web.go reads or writes.
    [Display] stands for the string [":<n>"]. *)
Record PipelineConfig := {
  Info : EgressInfo;
  WebUrl : string;
  BaseUrl : string;
  Width : Z;
  Height : Z;
  Depth : Z;
  Insecure : bool;
  AwaitStartSignal : bool;
  Display : Z
}.

Definition set_Display (d : Z) (p : PipelineConfig) : PipelineConfig :=
  {| Info := Info p; WebUrl := WebUrl p; BaseUrl := BaseUrl p;
     Width := Width p; Height := Height p; Depth := Depth p;
     Insecure := Insecure p; AwaitStartSignal := AwaitStartSignal p;
     Display := d |}.

(** The [*exec.Cmd] of a started Xvfb process. *)
Record Cmd := { cmdDisplay : Z; cmdDims : Z * Z * Z }.

(** One browser: the allocator and the context that one call of
    [launchChrome] creates.  [closeChrome] is the closure that cancels
    both; [None] is the nil function. *)
Definition handle := nat.

Record WebSource := {
  pulseSink : string;
  xvfb : option Cmd;
  closeChrome : option handle;
  startRecording : chan;
  endRecording : chan;
  info : EgressInfo
}.

Definition set_pulseSink (v : string) (s : WebSource) : WebSource :=
  {| pulseSink := v; xvfb := xvfb s; closeChrome := closeChrome s;
     startRecording := startRecording s; endRecording := endRecording s;
     info := info s |}.

Definition set_xvfb (v : option Cmd) (s : WebSource) : WebSource :=
  {| pulseSink := pulseSink s; xvfb := v; closeChrome := closeChrome s;
     startRecording := startRecording s; endRecording := endRecording s;
     info := info s |}.

Definition set_closeChrome (v : option handle) (s : WebSource) : WebSource :=
  {| pulseSink := pulseSink s; xvfb := xvfb s; closeChrome := v;
     startRecording := startRecording s; endRecording := endRecording s;
     info := info s |}.

Definition set_startRecording (v : chan) (s : WebSource) : WebSource :=
  {| pulseSink := pulseSink s; xvfb := xvfb s; closeChrome := closeChrome s;
     startRecording := v; endRecording := endRecording s;
     info := info s |}.

Definition set_endRecording (v : chan) (s : WebSource) : WebSource :=
  {| pulseSink := pulseSink s; xvfb := xvfb s; closeChrome := closeChrome s;
     startRecording := startRecording s; endRecording := v;
     info := info s |}.

(** *** What the browser sends to a listener *)

Record RemoteObject := { Value : list byte }.

Inductive TargetEvent :=
| EventConsoleAPICalled (Args : list RemoteObject)
| EventExceptionThrown
| EventResponseReceived (Status : Z)
| EventLoadingFailed
| EventOther.

(** *** The fake resource layer *)

(** What the world records, oldest first. *)
Inductive Event :=
| SinkLoaded (name : string)     (* pactl load-module ran and printed [name] *)
| SinkUnload (name : string)     (* pactl unload-module [name] was run *)
| XvfbStarted (c : Cmd)          (* xvfb.Start() succeeded *)
| XvfbKilled (c : Cmd)           (* Process.Kill() and Wait() *)
| ChromeCalled                   (* one call of launchChrome *)
| ChromeAllocated (h : handle)   (* NewExecAllocator and NewContext *)
| ChromeCanceled (h : handle)    (* chromeCancel(); allocCancel() *)
| Slept (d : Z).                 (* time.Sleep(d) *)

Definition World := list Event.

Definition emit (e : Event) (w : World) : World := w ++ [e].

Definition isAllocation (e : Event) : bool :=
  match e with ChromeAllocated _ => true | _ => false end.

(** Every allocation gets a handle of its own. *)
Definition fresh (w : World) : handle := length (List.filter isAllocation w).

(** How a call of [chromedp.Run] ends: it returns after some time, with
    an error or without, or it never returns by itself. *)
Inductive RunOutcome :=
| Returns (after : Z) (err : option goerror)
| Hangs.

(** The answers of the browser side during one call of [launchChrome].
    [console] holds the events that the browser of the attempt delivers
    to the listener, once it is registered, until the attempt is over:
    until [launchChrome] has returned or the attempt is given up.  What a
    browser delivers after its attempt (the browser of the controller that
    is returned, or a browser that was not cancelled) goes to the same
    listener, which is defined on any controller and any events. *)
Record ChromeEnv := {
  url_Parse : option goerror;     (* url.Parse(p.BaseUrl) *)
  network_Enable : RunOutcome;    (* Rev2: Run(chromeCtx, network.Enable()) *)
  navigate : RunOutcome;          (* Run(..., Navigate(webUrl), ...) *)
  postNavigate : RunOutcome;      (* Rev1: Run(chromeCtx, WaitReady, Evaluate) *)
  errString : string;             (* innerText of div.error, or empty *)
  console : list TargetEvent      (* what the listener is called with *)
}.

Record Env := {
  rand_Intn : Z;                  (* rand.Intn(2147483637) *)
  pactl_load : goerror + string;  (* cmd.Run() of load-module: error or stdout *)
  xvfb_Start : option goerror;    (* xvfb.Start() *)
  chrome : nat -> ChromeEnv;      (* the browser side during attempt 1, 2, ... *)
  json_Sprint : list byte -> option string
    (* fmt.Sprint(val) after json.Unmarshal(arg.Value, &val); None when the
       value does not decode *)
}.

(** How a call of [launchChrome] ends, seen from the goroutine that
    waits for it. *)
Inductive Completion :=
| Done (elapsed : Z) (err : option error)
| Never.

(** [select] over the result channel and [time.After(chromeTimeout)]; when
    both are ready at the same instant the timer is taken. *)
Definition awaitChrome (c : Completion) : option error :=
  match c with
  | Done elapsed err =>
      if elapsed <? chromeTimeout then err
      else Some (ErrPageLoadFailed "timed out")
  | Never => Some (ErrPageLoadFailed "timed out")
  end.

(** [context.WithTimeout(ctx, d)] around a run: the run is cut at [d]. *)
Definition withTimeout (d : Z) (o : RunOutcome) : Z * option goerror :=
  match o with
  | Returns after err =>
      if after <? d then (after, err) else (d, Some DeadlineExceeded)
  | Hangs => (d, Some DeadlineExceeded)
  end.

(** *** Methods of WebSource *)

Definition StartRecording (s : WebSource) : chan := startRecording s.

Definition EndRecording (s : WebSource) : chan := endRecording s.

Definition Close (s : WebSource) (w : World) : WebSource * World :=
  let '(s, w) :=
    match closeChrome s with
    | Some h => (set_closeChrome None s, emit (ChromeCanceled h) w)
    | None => (s, w)
    end in
  let '(s, w) :=
    match xvfb s with
    | Some c => (set_xvfb None s, emit (XvfbKilled c) w)
    | None => (s, w)
    end in
  if String.eqb (pulseSink s) EmptyString then (s, w)
  else (s, emit (SinkUnload (pulseSink s)) w).

Definition createPulseSink (env : Env) (p : PipelineConfig)
    (s : WebSource) (w : World) : option error * WebSource * World :=
  match pactl_load env with
  | inl err => (Some (ErrProcessFailed "pulse" err), s, w)
  | inr out =>
      let name := TrimRight out newline in
      (None, set_pulseSink name s, emit (SinkLoaded name) w)
  end.

Definition launchXvfb (env : Env) (p : PipelineConfig)
    (s : WebSource) (w : World) : option error * WebSource * World :=
  match xvfb_Start env with
  | Some err => (Some (ErrProcessFailed "xvfb" err), s, w)
  | None =>
      let c := {| cmdDisplay := Display p;
                  cmdDims := (Width p, Height p, Depth p) |} in
      (None, set_xvfb (Some c) s, emit (XvfbStarted c) w)
  end.

(** The first lines of [launchChrome]: the target URL.  Only the failure
    of [url.Parse] matters here; the URL itself goes to the browser. *)
Definition buildUrl (p : PipelineConfig) (ce : ChromeEnv) : option goerror :=
  if String.eqb (WebUrl p) EmptyString then url_Parse ce else None.

(** [allocCtx, allocCancel := NewExecAllocator(...)],
    [chromeCtx, chromeCancel := NewContext(allocCtx)] and the assignment
    of [s.closeChrome].  These come before the first call that can block,
    so they are taken to be done when an attempt is given up. *)
Definition allocChrome (s : WebSource) (w : World) : WebSource * World :=
  let h := fresh w in
  (set_closeChrome (Some h) s, emit (ChromeAllocated h) w).

(** *** The listener that [launchChrome] registers with [ListenTarget]

    Both revisions run the same loop over the arguments of a console
    event (web.go:307-336 and 746-775).  [json.Unmarshal] and [fmt.Sprint]
    belong to Go's library and are parameters here. *)

Section Listener.

Context {iface : Type}.
Variable json_Unmarshal : list byte -> option iface.
Variable fmt_Sprint : iface -> string.

(** The body of [for _, arg := range ev.Args].  [None] is a panic. *)
Definition onArg (s : WebSource) (arg : RemoteObject) : option WebSource :=
  match json_Unmarshal (Value arg) with
  | None => Some s
  | Some val =>
      let str := fmt_Sprint val in
      if String.eqb str startRecordingLog then
        if non_nil (startRecording s) then
          if recv_ready (startRecording s) then Some s
          else c ← close (startRecording s); Some (set_startRecording c s)
        else Some s
      else if String.eqb str endRecordingLog then
        if non_nil (endRecording s) then
          if recv_ready (endRecording s) then Some s
          else c ← close (endRecording s); Some (set_endRecording c s)
        else Some s
      else Some s
  end.

Fixpoint onArgs (s : WebSource) (args : list RemoteObject) : option WebSource :=
  match args with
  | [] => Some s
  | arg :: rest => s' ← onArg s arg; onArgs s' rest
  end.

Definition listener (s : WebSource) (ev : TargetEvent) : option WebSource :=
  match ev with
  | EventConsoleAPICalled args => onArgs s args
  | EventExceptionThrown => Some s
  | EventResponseReceived _ => Some s
  | EventLoadingFailed => Some s
  | EventOther => Some s
  end.

(** The events the browser delivers, one after the other. *)
Fixpoint dispatch (s : WebSource) (evs : list TargetEvent) : option WebSource :=
  match evs with
  | [] => Some s
  | ev :: rest => s' ← listener s ev; dispatch s' rest
  end.

(** What an argument prints as, when it decodes. *)
Definition printed (arg : RemoteObject) : option string :=
  fmt_Sprint <$> json_Unmarshal (Value arg).

Definition printsAs (str : string) (arg : RemoteObject) : bool :=
  match printed arg with
  | Some str' => String.eqb str' str
  | None => false
  end.

Definition mentions (str : string) (ev : TargetEvent) : bool :=
  match ev with
  | EventConsoleAPICalled args => existsb (printsAs str) args
  | _ => false
  end.

End Listener.

(** The listener as [launchChrome] registers it, called with the events
    of one browser.  The guards before each [close] keep it from panicking
    on any controller and any events, so the controller is always the one
    that [dispatch] returns. *)
Definition listen (sprint : list byte -> option string) (s : WebSource)
    (evs : list TargetEvent) : WebSource :=
  default s (dispatch sprint (fun val => val) s evs).

(** A channel changes at most by being closed. *)
Definition chan_le (c c' : chan) : bool :=
  match c, c' with
  | ChNil, ChNil => true
  | ChOpen, ChOpen => true
  | ChOpen, ChClosed => true
  | ChClosed, ChClosed => true
  | _, _ => false
  end.

(** What the listener may do to a controller: close a channel. *)
Definition evolves (s s' : WebSource) : Prop :=
  pulseSink s' = pulseSink s /\ xvfb s' = xvfb s /\
  closeChrome s' = closeChrome s /\ info s' = info s /\
  chan_le (startRecording s) (startRecording s') = true /\
  chan_le (endRecording s) (endRecording s') = true.

(** *** Reading the world *)

Definition isCall (e : Event) : bool :=
  match e with ChromeCalled => true | _ => false end.

Definition isKill (e : Event) : bool :=
  match e with XvfbKilled _ => true | _ => false end.

Definition isUnload (e : Event) : bool :=
  match e with SinkUnload _ => true | _ => false end.

Definition isCancel (e : Event) : bool :=
  match e with ChromeCanceled _ => true | _ => false end.

Definition count (f : Event -> bool) (w : World) : nat :=
  length (List.filter f w).

Inductive Resource :=
| RSink (name : string)
| RXvfb (c : Cmd)
| RChrome (h : handle).

#[global] Instance Cmd_eq_dec : EqDecision Cmd.
Proof. solve_decision. Defined.

#[global] Instance Resource_eq_dec : EqDecision Resource.
Proof. solve_decision. Defined.

Definition release (r : Resource) (l : list Resource) : list Resource :=
  List.filter (fun r' => negb (bool_decide (r' = r))) l.

Definition step_live (l : list Resource) (e : Event) : list Resource :=
  match e with
  | SinkLoaded name => l ++ [RSink name]
  | SinkUnload name => release (RSink name) l
  | XvfbStarted c => l ++ [RXvfb c]
  | XvfbKilled c => release (RXvfb c) l
  | ChromeAllocated h => l ++ [RChrome h]
  | ChromeCanceled h => release (RChrome h) l
  | ChromeCalled => l
  | Slept _ => l
  end.

(** The resources that were created and not destroyed since. *)
Definition live (w : World) : list Resource := fold_left step_live w [].

Definition isBrowser (r : Resource) : bool :=
  match r with RChrome _ => true | _ => false end.

(** No browser is allocated while another one is live. *)
Fixpoint exclusiveFrom (l : list Resource) (w : World) : bool :=
  match w with
  | [] => true
  | e :: rest =>
      (if isAllocation e then negb (existsb isBrowser l) else true)
      && exclusiveFrom (step_live l e) rest
  end.

Definition exclusive (w : World) : bool := exclusiveFrom [] w.

End Source.

(** ** web.go, first revision (lines 62-118 and 208-419) *)

Module Rev1.
Import Go Errors Source.

Definition maxRetries : nat := 3.
Definition retryDelay : Z := Second * 5.
Definition navigationTimeout : Z := 60 * Second.

(** [launchChrome] from the navigation on (web.go:358-418). *)
Definition runChrome (ce : ChromeEnv) : Completion :=
  let '(t, err) := withTimeout navigationTimeout (navigate ce) in
  match err with
  | Some err =>
      if isDeadlineExceeded err then
        Done t (Some (ErrPageLoadFailed "navigation timed out"))
      else if HasPrefix (Error err) chromeFailedToStart then
        Done t (Some (ErrChromeFailedToStart err))
      else Done t (Some (ErrPageLoadFailed (Error err)))
  | None =>
      match postNavigate ce with
      | Hangs => Never
      | Returns t' (Some err) =>
          Done (t + t') (Some (ErrPageLoadFailed (Error err)))
      | Returns t' None =>
          if String.eqb (errString ce) EmptyString then Done (t + t') None
          else Done (t + t') (Some (ErrPageLoadFailed (errString ce)))
      end
  end.

(** [launchChrome]: the URL, the browser, the listener (web.go:292), the
    navigation.  The listener is registered before the first call that
    can block, so the events of the attempt reach the controller whatever
    the navigation does. *)
Definition launchChrome (sprint : list byte -> option string)
    (s : WebSource) (p : PipelineConfig) (insecure : bool)
    (ce : ChromeEnv) (w : World) : Completion * WebSource * World :=
  match buildUrl p ce with
  | Some err => (Done 0 (Some (Lib err)), s, w)
  | None =>
      let '(s, w) := allocChrome s w in
      let s := listen sprint s (console ce) in
      (runChrome ce, s, w)
  end.

(** [for attempt := 1; attempt <= maxRetries; attempt++], with
    [todo = maxRetries + 1 - attempt], and the lines after the loop. *)
Fixpoint chromeLoop (todo attempt : nat) (env : Env) (p : PipelineConfig)
    (err : option error) (s : WebSource) (w : World)
    : option WebSource * option error * World :=
  match todo with
  | O =>
      let '(_, w) := Close s w in
      (None, err, w)
  | S todo =>
      let '(c, s, w) :=
        launchChrome (json_Sprint env) s p (Insecure p) (chrome env attempt)
          (emit ChromeCalled w) in
      match awaitChrome c with
      | None => (Some s, None, w)
      | Some e =>
          let w :=
            if Nat.ltb attempt maxRetries then emit (Slept retryDelay) w
            else w in
          chromeLoop todo (S attempt) env p (Some e) s w
      end
  end.

Definition NewWebSource (env : Env) (p : PipelineConfig)
    : option WebSource * option error * World :=
  let p := set_Display (10 + rand_Intn env) p in
  let s := {| pulseSink := EmptyString; xvfb := None; closeChrome := None;
              startRecording := ChNil; endRecording := make_chan;
              info := Info p |} in
  let s := if AwaitStartSignal p then set_startRecording make_chan s else s in
  match createPulseSink env p s [] with
  | (Some err, s, w) =>
      let '(_, w) := Close s w in
      (None, Some err, w)
  | (None, s, w) =>
      match launchXvfb env p s w with
      | (Some err, s, w) =>
          let '(_, w) := Close s w in
          (None, Some err, w)
      | (None, s, w) => chromeLoop maxRetries 1 env p None s w
      end
  end.

(** What a call of [launchChrome] reports does not depend on the
    controller nor on the console: it is decided by the configuration and
    the answers of the browser side. *)
Definition outcome (p : PipelineConfig) (ce : ChromeEnv) : Completion :=
  match buildUrl p ce with
  | Some err => Done 0 (Some (Lib err))
  | None => runChrome ce
  end.

(** The error that attempt [a] ends with; [None] is success. *)
Definition attemptError (env : Env) (p : PipelineConfig) (a : nat) : option error :=
  awaitChrome (outcome p (chrome env a)).

End Rev1.

(** ** web.go, second revision (lines 494-556 and 646-811) *)

Module Rev2.
Import Go Errors Source.

Definition maxRetries : nat := 5.
Definition retryDelay : Z := Second * 10.

(** [launchChrome] from the network tracking on (web.go:727-810). *)
Definition runChrome (ce : ChromeEnv) : Completion :=
  match network_Enable ce with
  | Hangs => Never
  | Returns t (Some err) => Done t (Some (Lib err))
  | Returns t None =>
      match navigate ce with
      | Hangs => Never
      | Returns t' (Some err) =>
          if HasPrefix (Error err) chromeFailedToStart then
            Done (t + t') (Some (ErrChromeFailedToStart err))
          else if String.eqb (Error err) EmptyString then Done (t + t') None
          else Done (t + t') (Some (ErrPageLoadFailed (Error err)))
      | Returns t' None =>
          if String.eqb (errString ce) EmptyString then Done (t + t') None
          else Done (t + t') (Some (ErrPageLoadFailed (errString ce)))
      end
  end.

(** Whether the listener gets registered (web.go:733): [network.Enable]
    comes first and has to return without error, and before the attempt is
    given up and its browser cancelled. *)
Definition listening (ce : ChromeEnv) : bool :=
  match network_Enable ce with
  | Returns t None => t <? chromeTimeout
  | _ => false
  end.

(** [launchChrome]: the URL, the browser, the network tracking, the
    listener, the navigation. *)
Definition launchChrome (sprint : list byte -> option string)
    (s : WebSource) (p : PipelineConfig) (insecure : bool)
    (ce : ChromeEnv) (w : World) : Completion * WebSource * World :=
  match buildUrl p ce with
  | Some err => (Done 0 (Some (Lib err)), s, w)
  | None =>
      let '(s, w) := allocChrome s w in
      let s := if listening ce then listen sprint s (console ce) else s in
      (runChrome ce, s, w)
  end.

(** The lines "Close Chrome if it's still running" (web.go:540-544). *)
Definition cancelChrome (s : WebSource) (w : World) : WebSource * World :=
  match closeChrome s with
  | Some h => (set_closeChrome None s, emit (ChromeCanceled h) w)
  | None => (s, w)
  end.

Fixpoint chromeLoop (todo attempt : nat) (env : Env) (p : PipelineConfig)
    (err : option error) (s : WebSource) (w : World)
    : option WebSource * option error * World :=
  match todo with
  | O =>
      let '(_, w) := Close s w in
      (None, err, w)
  | S todo =>
      let '(c, s, w) :=
        launchChrome (json_Sprint env) s p (Insecure p) (chrome env attempt)
          (emit ChromeCalled w) in
      match awaitChrome c with
      | None => (Some s, None, w)
      | Some e =>
          let '(s, w) := cancelChrome s w in
          let w :=
            if Nat.ltb attempt maxRetries then emit (Slept retryDelay) w
            else w in
          chromeLoop todo (S attempt) env p (Some e) s w
      end
  end.

Definition NewWebSource (env : Env) (p : PipelineConfig)
    : option WebSource * option error * World :=
  let p := set_Display (10 + rand_Intn env) p in
  let s := {| pulseSink := EmptyString; xvfb := None; closeChrome := None;
              startRecording := ChNil; endRecording := make_chan;
              info := Info p |} in
  let s := if AwaitStartSignal p then set_startRecording make_chan s else s in
  match createPulseSink env p s [] with
  | (Some err, s, w) =>
      let '(_, w) := Close s w in
      (None, Some err, w)
  | (None, s, w) =>
      match launchXvfb env p s w with
      | (Some err, s, w) =>
          let '(_, w) := Close s w in
          (None, Some err, w)
      | (None, s, w) => chromeLoop maxRetries 1 env p None s w
      end
  end.

(** What a call of [launchChrome] reports does not depend on the
    controller nor on the console: it is decided by the configuration and
    the answers of the browser side. *)
Definition outcome (p : PipelineConfig) (ce : ChromeEnv) : Completion :=
  match buildUrl p ce with
  | Some err => Done 0 (Some (Lib err))
  | None => runChrome ce
  end.

(** The error that attempt [a] ends with; [None] is success. *)
Definition attemptError (env : Env) (p : PipelineConfig) (a : nat) : option error :=
  awaitChrome (outcome p (chrome env a)).

End Rev2.

(** ** pkg/pipeline/sink/uploader/uploader.go *)

Module Uploader.
Import Go.

Definition maxRetries : nat := 5.
Definition minDelay : Z := Millisecond * 100.
Definition maxDelay : Z := Second * 5.

(** [types.OutputType] is a string type. *)
Definition OutputType := string.

(** What an upload does to the outside, oldest first. *)
Inductive Op :=
| OpMkdirAll (dir : string)
| OpCopyFile (src dst : string)
| OpStat (name : string)
| OpRemove (name : string)
| OpBackend (localFilepath storageFilepath : string)   (* a remote store was called *)
| OpSleep (d : Z)
| OpLog (msg : string).

(** The operations that a retry or a remote delivery would leave. *)
Definition isRetryOp (o : Op) : bool :=
  match o with
  | OpSleep _ | OpBackend _ _ => true
  | _ => false
  end.

(** The file system: what each path reads as.  One file can be read
    under several paths; the operating system says which ([sameFile] and
    [goneWith] below). *)
Record UWorld := {
  files : gmap string (list byte);
  ops : list Op
}.

Definition record (o : Op) (w : UWorld) : UWorld :=
  {| files := files w; ops := ops w ++ [o] |}.

Definition set_files (m : gmap string (list byte)) (w : UWorld) : UWorld :=
  {| files := m; ops := ops w |}.

(** What the operating system answers: the faults it injects, by call and
    path, and how it resolves names.  [files] is what each path reads as,
    and one file can be read under several paths: [sameFile k name] says
    that the path [k] names the file that [name] names (another spelling
    of the path such as [dir/./a] for [dir/a], a hard link, a symbolic
    link), so what is written through [name] is read under [k] as well;
    [goneWith name k] says that [k] names nothing any more once [name] is
    removed (another spelling, a symbolic link to it; not a hard link). *)
Record Faults := {
  mkdirAll_err : string -> option goerror;
  open_err : string -> option goerror;
  create_err : string -> option goerror;
  copy_err : string -> option goerror;
  stat_err : string -> option goerror;
  remove_err : string -> option goerror;
  sameFile : string -> string -> bool;
  goneWith : string -> string -> bool
}.

(** The paths [k] and [name] name one file. *)
Definition aliased (F : Faults) (k name : string) : bool :=
  String.eqb k name || sameFile F k name.

(** The path [k] names nothing once [name] is removed. *)
Definition removedWith (F : Faults) (name k : string) : bool :=
  String.eqb k name || goneWith F name k.

Definition ErrNotExist : goerror := ErrorString "no such file or directory".

(** The result of an upload: [(string, int64, error)]. *)
Definition Result : Type := string * Z * option goerror.

(** The interface [uploader] of the remote stores. *)
Record uploader := {
  upload : string -> string -> OutputType -> UWorld -> Result * UWorld
}.

Record remoteUploader := {
  remote_uploader : uploader;     (* the embedded interface value *)
  backup : string;
  monitor : unit
}.

Record localUploader := {}.

(** The values of the interface [Uploader] that [New] returns. *)
Inductive Uploader :=
| Remote (u : remoteUploader)
| Local (u : localUploader).

(** The upload configurations that [New] tells apart; the payload is the
    configuration of the store. *)
Inductive UploadConfig :=
| EgressS3Upload (c : string)
| S3Upload (c : string)
| GCPUpload (c : string)
| AzureBlobUpload (c : string)
| AliOSSUpload (c : string)
| NoUpload.

Section Upload.

(** [path.Join] and [path.Dir] of Go's library. *)
Variable path_Join : string -> string -> string.
Variable path_Dir : string -> string.

(** The constructors of the remote stores are not among the sources. *)
Variable newS3Uploader : string -> goerror + uploader.
Variable newGCPUploader : string -> goerror + uploader.
Variable newAzureUploader : string -> goerror + uploader.
Variable newAliOSSUploader : string -> goerror + uploader.

Variable F : Faults.

Definition os_MkdirAll (dir : string) (w : UWorld) : option goerror * UWorld :=
  (mkdirAll_err F dir, record (OpMkdirAll dir) w).

(** [os.Open]: the open file is named by its path. *)
Definition os_Open (name : string) (w : UWorld) : goerror + string :=
  match open_err F name with
  | Some err => inl err
  | None =>
      match files w !! name with
      | Some _ => inr name
      | None => inl ErrNotExist
      end
  end.

(** The file that [name] names gets the bytes [content]: they are read
    under [name] and under every other path of that file. *)
Definition writeFile (name : string) (content : list byte)
    (m : gmap string (list byte)) : gmap string (list byte) :=
  <[name := content]>
    (map_imap (fun k v => Some (if sameFile F k name then content else v)) m).

(** The name [name] is removed, and with it the paths that resolve
    through it. *)
Definition unlink (name : string)
    (m : gmap string (list byte)) : gmap string (list byte) :=
  delete name
    (map_imap (fun k v => if goneWith F name k then None else Some v) m).

(** [os.Create] truncates the file or creates it. *)
Definition os_Create (name : string) (w : UWorld) : option goerror * UWorld :=
  match create_err F name with
  | Some err => (Some err, w)
  | None => (None, set_files (writeFile name [] (files w)) w)
  end.

(** [io.Copy(dst, src)] on two open files. *)
Definition io_Copy (dst src : string) (w : UWorld) : option goerror * UWorld :=
  match copy_err F src with
  | Some err => (Some err, w)
  | None =>
      let content := default [] (files w !! src) in
      (None, set_files (writeFile dst content (files w)) w)
  end.

(** [os.Stat(name)] followed by [Size()]. *)
Definition os_Stat (name : string) (w : UWorld) : (goerror + Z) * UWorld :=
  let w' := record (OpStat name) w in
  match stat_err F name with
  | Some err => (inl err, w')
  | None =>
      match files w !! name with
      | Some content => (inr (Z.of_nat (length content)), w')
      | None => (inl ErrNotExist, w')
      end
  end.

(** [os.Remove]: a failed removal leaves the file system as it is. *)
Definition os_Remove (name : string) (w : UWorld) : option goerror * UWorld :=
  let w' := record (OpRemove name) w in
  match remove_err F name with
  | Some err => (Some err, w')
  | None =>
      match files w !! name with
      | Some _ => (None, set_files (unlink name (files w)) w')
      | None => (Some ErrNotExist, w')
      end
  end.

Definition copyFile (src dst : string) (w : UWorld) : option goerror * UWorld :=
  let w := record (OpCopyFile src dst) w in
  match os_Open src w with
  | inl err => (Some err, w)
  | inr sourceFile =>
      match os_Create dst w with
      | (Some err, w) => (Some err, w)
      | (None, w) =>
          match io_Copy dst sourceFile w with
          | (Some err, w) => (Some err, w)
          | (None, w) => (None, w)
          end
      end
  end.

Definition outDir : string := "/out/recordings".

Definition remoteUploader_Upload (u : remoteUploader)
    (localFilepath storageFilepath : string) (outputType : OutputType)
    (deleteAfterUpload : bool) (fileType : string) (w : UWorld)
    : Result * UWorld :=
  let outFilepath := path_Join outDir storageFilepath in
  match os_MkdirAll (path_Dir outFilepath) w with
  | (Some err, w) =>
      ((EmptyString, 0, Some err),
       record (OpLog "failed to create output directory") w)
  | (None, w) =>
      match copyFile localFilepath outFilepath w with
      | (Some err, w) =>
          ((EmptyString, 0, Some err),
           record (OpLog "failed to copy file to output location") w)
      | (None, w) =>
          match os_Stat outFilepath w with
          | (inl err, w) =>
              ((EmptyString, 0, Some err),
               record (OpLog "failed to get file info") w)
          | (inr size, w) =>
              let w :=
                if deleteAfterUpload then
                  match os_Remove localFilepath w with
                  | (Some err, w) =>
                      record (OpLog "failed to delete original file") w
                  | (None, w) => w
                  end
                else w in
              ((outFilepath, size, None), w)
          end
      end
  end.

Definition localUploader_Upload (u : localUploader)
    (localFilepath storageFilepath : string) (outputType : OutputType)
    (deleteAfterUpload : bool) (fileType : string) (w : UWorld)
    : Result * UWorld :=
  match os_Stat localFilepath w with
  | (inl err, w) => ((EmptyString, 0, Some err), w)
  | (inr size, w) => ((localFilepath, size, None), w)
  end.

(** A call through the interface [Uploader]. *)
Definition Upload (u : Uploader) :=
  match u with
  | Remote r => remoteUploader_Upload r
  | Local l => localUploader_Upload l
  end.

Definition New (conf : UploadConfig) (backup : string) (mon : unit)
    : goerror + Uploader :=
  let made :=
    match conf with
    | EgressS3Upload c => Some (newS3Uploader c)
    | S3Upload c => Some (newS3Uploader c)
    | GCPUpload c => Some (newGCPUploader c)
    | AzureBlobUpload c => Some (newAzureUploader c)
    | AliOSSUpload c => Some (newAliOSSUploader c)
    | NoUpload => None
    end in
  match made with
  | None => inr (Local Build_localUploader)
  | Some (inl err) => inl err
  | Some (inr u) =>
      inr (Remote {| remote_uploader := u; backup := backup; monitor := mon |})
  end.

End Upload.

End Uploader.

(** ** Concrete inputs *)

Module Fixtures.
Import Go Errors Source Uploader.

Definition cfg : PipelineConfig :=
  {| Info := {| EgressId := "EG_1" |}; WebUrl := "https://example.org/room";
     BaseUrl := EmptyString; Width := 1920; Height := 1080; Depth := 24;
     Insecure := false; AwaitStartSignal := false; Display := 0 |}.

Definition cfgGated : PipelineConfig :=
  {| Info := {| EgressId := "EG_2" |}; WebUrl := "https://example.org/room";
     BaseUrl := EmptyString; Width := 1280; Height := 720; Depth := 24;
     Insecure := false; AwaitStartSignal := true; Display := 0 |}.

(** The page loads in two seconds and shows no error. *)
Definition pageOk : ChromeEnv :=
  {| url_Parse := None; network_Enable := Returns Second None;
     navigate := Returns Second None; postNavigate := Returns 0 None;
     errString := EmptyString; console := [] |}.

(** The page loads and shows an error element. *)
Definition pageError : ChromeEnv :=
  {| url_Parse := None; network_Enable := Returns Second None;
     navigate := Returns Second None; postNavigate := Returns 0 None;
     errString := "room not found"; console := [] |}.

(** The navigation never completes by itself. *)
Definition pageHangs : ChromeEnv :=
  {| url_Parse := None; network_Enable := Returns Second None;
     navigate := Hangs; postNavigate := Returns 0 None;
     errString := EmptyString; console := [] |}.

(** The navigation completes without error after 50 seconds. *)
Definition pageSlow : ChromeEnv :=
  {| url_Parse := None; network_Enable := Returns Second None;
     navigate := Returns (50 * Second) None; postNavigate := Returns 0 None;
     errString := EmptyString; console := [] |}.

(** A stand-in for [json.Unmarshal] that decodes string literals without
    escapes, and for [fmt.Sprint] on the decoded string. *)
Definition quote : byte := x22.

Definition demo_Unmarshal (raw : list byte) : option string :=
  match raw with
  | first :: rest =>
      match rev rest with
      | final :: inner =>
          if Byte.eqb first quote && Byte.eqb final quote
          then Some (String.string_of_list_byte (rev inner))
          else None
      | [] => None
      end
  | [] => None
  end.

Definition demo_Sprint (val : string) : string := val.

Definition hostWith (browser : nat -> ChromeEnv) : Env :=
  {| rand_Intn := 89; pactl_load := inr (String.append "23" newline);
     xvfb_Start := None; chrome := browser;
     json_Sprint := demo_Unmarshal |}.

Definition envOk : Env := hostWith (fun _ => pageOk).

Definition envAlwaysFails : Env := hostWith (fun _ => pageError).

Definition envAlwaysHangs : Env := hostWith (fun _ => pageHangs).

(** The browser fails on every attempt before the [n]-th and succeeds
    from then on. *)
Definition envSucceedsAt (n : nat) : Env :=
  hostWith (fun a => if Nat.ltb a n then pageError else pageOk).

Definition display99 : Cmd :=
  {| cmdDisplay := 99; cmdDims := (1920, 1080, 24) |}.

(** A controller as [NewWebSource] returns it. *)
Definition ready : WebSource :=
  {| pulseSink := "23"; xvfb := Some display99; closeChrome := Some 0%nat;
     startRecording := ChOpen; endRecording := ChOpen;
     info := {| EgressId := "EG_1" |} |}.

Definition ungated : WebSource := set_startRecording ChNil ready.

(** The world after a construction that succeeds at the first attempt. *)
Definition firstTry : World :=
  [SinkLoaded "23"; XvfbStarted display99; ChromeCalled; ChromeAllocated 0%nat].

Definition started : WebSource := set_startRecording ChClosed ready.

Definition literal (str : string) : RemoteObject :=
  {| Value := quote :: String.list_byte_of_string str ++ [quote] |}.

Definition startEvent : TargetEvent :=
  EventConsoleAPICalled [literal startRecordingLog].

Definition endEvent : TargetEvent :=
  EventConsoleAPICalled [literal endRecordingLog].

(** The upload side. *)
Definition noFaults : Faults :=
  {| mkdirAll_err := fun _ => None; open_err := fun _ => None;
     create_err := fun _ => None; copy_err := fun _ => None;
     stat_err := fun _ => None; remove_err := fun _ => None;
     sameFile := fun _ _ => false; goneWith := fun _ _ => false |}.

Definition busy : goerror := ErrorString "resource temporarily unavailable".

Definition openFails : Faults :=
  {| mkdirAll_err := fun _ => None; open_err := fun _ => Some busy;
     create_err := fun _ => None; copy_err := fun _ => None;
     stat_err := fun _ => None; remove_err := fun _ => None;
     sameFile := fun _ _ => false; goneWith := fun _ _ => false |}.

Definition removeFails : Faults :=
  {| mkdirAll_err := fun _ => None; open_err := fun _ => None;
     create_err := fun _ => None; copy_err := fun _ => None;
     stat_err := fun _ => None; remove_err := fun _ => Some busy;
     sameFile := fun _ _ => false; goneWith := fun _ _ => false |}.

(** A remote store that records that it was called. *)
Definition fakeStore : uploader :=
  {| upload := fun l st _ w => ((st, 0, None), record (OpBackend l st) w) |}.

Definition newFakeStore (c : string) : goerror + uploader := inr fakeStore.

(** [path.Join] and [path.Dir] on a clean relative file name. *)
Definition join (dir name : string) : string :=
  String.append dir (String.append "/" name).

Definition dirOf (name : string) : string := outDir.

Definition disk : UWorld :=
  {| files := {[ "/tmp/a.mp4" := [x01; x02; x03]%byte ]}; ops := [] |}.

Definition s3Uploader : remoteUploader :=
  {| remote_uploader := fakeStore; backup := EmptyString; monitor := tt |}.

End Fixtures.
(** ** launchChrome: the target URL and the browser options *)

Module Browser.
Import Go Source.

(** The fields of [config.PipelineConfig] that only [launchChrome] reads. *)
Record BrowserConfig := {
  EnableChromeSandbox : bool;
  Layout : string;
  WsUrl : string;
  Token : string
}.

(** [url.Values]: every key has a list of values. *)
Abbreviation Values := (gmap string (list string)).

(** [values.Set(key, value)] replaces whatever the key had. *)
Definition Values_Set (key value : string) (v : Values) : Values :=
  <[key := [value]]> v.

(** A parsed [*url.URL]: the query and everything else. *)
Record URL := { urlRest : string; RawQuery : string }.

Definition set_RawQuery (q : string) (u : URL) : URL :=
  {| urlRest := urlRest u; RawQuery := q |}.

Section WebUrl.

(** [url.Parse], [URL.Query], [Values.Encode] and [URL.String] of Go's
    library. *)
Variable url_Parse : string -> goerror + URL.
Variable URL_Query : URL -> Values.
Variable Values_Encode : Values -> string.
Variable URL_String : URL -> string.

(** The values that the built URL carries (web.go:219-222, 657-660). *)
Definition inputValues (bc : BrowserConfig) (u : URL) : Values :=
  Values_Set "token" (Token bc)
    (Values_Set "url" (WsUrl bc)
       (Values_Set "layout" (Layout bc) (URL_Query u))).

(** The first lines of [launchChrome] (web.go:212-225, 650-663), the same
    in both revisions. *)
Definition webUrl (p : PipelineConfig) (bc : BrowserConfig) : goerror + string :=
  if String.eqb (WebUrl p) EmptyString then
    match url_Parse (BaseUrl p) with
    | inl err => inl err
    | inr inputUrl =>
        let values := inputValues bc inputUrl in
        inr (URL_String (set_RawQuery (Values_Encode values) inputUrl))
    end
  else inr (WebUrl p).

End WebUrl.

(** The value of a flag: [chromedp.Flag] takes a bool or a string. *)
Inductive FlagValue :=
| FlagBool (b : bool)
| FlagString (str : string).

Inductive ExecAllocatorOption :=
| NoFirstRun
| NoDefaultBrowserCheck
| DisableGPU
| Flag (name : string) (value : FlagValue)
| Env (vars : string).

(** [fmt.Sprintf] with the verb [%d]. *)
Definition decimal (z : Z) : string := pretty z.

(** [p.Display], the string [fmt.Sprintf(":%d", n)]. *)
Definition displayName (p : PipelineConfig) : string :=
  String.append ":" (decimal (Display p)).

(** The options that take their value from the configuration, the same
    in both revisions (web.go:260-273, 697-710). *)
Definition customOpts (p : PipelineConfig) (bc : BrowserConfig)
    : list ExecAllocatorOption :=
  [ Flag "kiosk" (FlagBool true);
    Flag "disable-translate" (FlagBool true);
    Flag "enable-automation" (FlagBool false);
    Flag "autoplay-policy" (FlagString "no-user-gesture-required");
    Flag "window-position" (FlagString "0,0");
    Flag "window-size"
      (FlagString (String.append (decimal (Width p))
                     (String.append "," (decimal (Height p)))));
    Env (String.append "PULSE_SINK=" (EgressId (Info p)));
    Flag "display" (FlagString (displayName p));
    Flag "no-sandbox" (FlagBool (negb (EnableChromeSandbox bc))) ].

(** [if insecure { opts = append(opts, ...) }] *)
Definition insecureOpts (insecure : bool) : list ExecAllocatorOption :=
  if insecure then
    [ Flag "disable-web-security" (FlagBool true);
      Flag "allow-running-insecure-content" (FlagBool true) ]
  else [].

(** The options of the first revision (web.go:229-281). *)
Definition opts1 (p : PipelineConfig) (bc : BrowserConfig) (insecure : bool)
    : list ExecAllocatorOption :=
  [ NoFirstRun; NoDefaultBrowserCheck; DisableGPU;
    Flag "disable-infobars" (FlagBool true);
    Flag "excludeSwitches" (FlagString "enable-automation");
    Flag "disable-background-networking" (FlagBool true);
    Flag "enable-features" (FlagString "NetworkService,NetworkServiceInProcess");
    Flag "disable-background-timer-throttling" (FlagBool true);
    Flag "disable-backgrounding-occluded-windows" (FlagBool true);
    Flag "disable-breakpad" (FlagBool true);
    Flag "disable-client-side-phishing-detection" (FlagBool true);
    Flag "disable-default-apps" (FlagBool true);
    Flag "disable-dev-shm-usage" (FlagBool true);
    Flag "disable-extensions" (FlagBool true);
    Flag "disable-features"
      (FlagString "AudioServiceOutOfProcess,site-per-process,TranslateUI,BlinkGenPropertyTrees");
    Flag "disable-hang-monitor" (FlagBool true);
    Flag "disable-ipc-flooding-protection" (FlagBool true);
    Flag "disable-popup-blocking" (FlagBool true);
    Flag "disable-prompt-on-repost" (FlagBool true);
    Flag "disable-renderer-backgrounding" (FlagBool true);
    Flag "disable-sync" (FlagBool true);
    Flag "disable-quic" (FlagBool true);
    Flag "force-color-profile" (FlagString "srgb");
    Flag "metrics-recording-only" (FlagBool true);
    Flag "safebrowsing-disable-auto-update" (FlagBool true);
    Flag "password-store" (FlagString "basic");
    Flag "use-mock-keychain" (FlagBool true) ]
  ++ customOpts p bc ++ insecureOpts insecure.

(** The options of the second revision (web.go:667-718). *)
Definition opts2 (p : PipelineConfig) (bc : BrowserConfig) (insecure : bool)
    : list ExecAllocatorOption :=
  [ NoFirstRun; NoDefaultBrowserCheck; DisableGPU;
    Flag "disable-infobars" (FlagBool true);
    Flag "excludeSwitches" (FlagString "enable-automation");
    Flag "disable-background-networking" (FlagBool true);
    Flag "enable-features" (FlagString "NetworkService,NetworkServiceInProcess");
    Flag "disable-background-timer-throttling" (FlagBool true);
    Flag "disable-backgrounding-occluded-windows" (FlagBool true);
    Flag "disable-breakpad" (FlagBool true);
    Flag "disable-client-side-phishing-detection" (FlagBool true);
    Flag "disable-default-apps" (FlagBool true);
    Flag "disable-dev-shm-usage" (FlagBool true);
    Flag "disable-extensions" (FlagBool true);
    Flag "disable-features"
      (FlagString "AudioServiceOutOfProcess,site-per-process,Translate,TranslateUI,BlinkGenPropertyTrees");
    Flag "disable-hang-monitor" (FlagBool true);
    Flag "disable-ipc-flooding-protection" (FlagBool true);
    Flag "disable-popup-blocking" (FlagBool true);
    Flag "disable-prompt-on-repost" (FlagBool true);
    Flag "disable-renderer-backgrounding" (FlagBool true);
    Flag "disable-sync" (FlagBool true);
    Flag "force-color-profile" (FlagString "srgb");
    Flag "metrics-recording-only" (FlagBool true);
    Flag "safebrowsing-disable-auto-update" (FlagBool true);
    Flag "password-store" (FlagString "basic");
    Flag "use-mock-keychain" (FlagBool true) ]
  ++ customOpts p bc ++ insecureOpts insecure.

(** The names of the flags, in the order of the options. *)
Definition flagNames (opts : list ExecAllocatorOption) : list string :=
  omap (fun o => match o with Flag name _ => Some name | _ => None end) opts.

(** The value a flag ends with: the options are applied in order, so a
    later one replaces an earlier one of the same name. *)
Fixpoint flagValue (name : string) (opts : list ExecAllocatorOption)
    : option FlagValue :=
  match opts with
  | [] => None
  | o :: rest =>
      match flagValue name rest with
      | Some v => Some v
      | None =>
          match o with
          | Flag n v => if String.eqb n name then Some v else None
          | _ => None
          end
      end
  end.

End Browser.

(** ** Reading the world, continued *)

Module Observe.
Import Go Source.

Definition isSleep (e : Event) : bool :=
  match e with Slept _ => true | _ => false end.

(** The time spent in [time.Sleep]. *)
Definition slept (w : World) : Z :=
  fold_right (fun e acc => match e with Slept d => d + acc | _ => acc end) 0 w.

(** The string that is [n] newlines. *)
Fixpoint newlines (n : nat) : string :=
  match n with
  | O => EmptyString
  | S n => String (ascii_of_nat 10) (newlines n)
  end.

(** The last character of a string, if it has one. *)
Fixpoint lastChar (str : string) : option ascii :=
  match str with
  | EmptyString => None
  | String c EmptyString => Some c
  | String _ rest => lastChar rest
  end.

(** A controller that the retry loop returns holds a browser and is
    otherwise the controller the loop started with, but for the channels
    that the listener has closed in the meantime. *)
Definition kept (s s' : WebSource) : Prop :=
  closeChrome s' <> None /\ pulseSink s' = pulseSink s /\ xvfb s' = xvfb s /\
  info s' = info s /\
  chan_le (startRecording s) (startRecording s') = true /\
  chan_le (endRecording s) (endRecording s') = true.

(** What the console of an attempt holds: an argument that prints as the
    end sentinel, or no sentinel at all. *)
Definition ends (sprint : list byte -> option string)
    (evs : list TargetEvent) : bool :=
  existsb (mentions sprint (fun val => val) endRecordingLog) evs.


End Observe.

(** ** Concrete inputs, continued *)

Module Fixtures2.
Import Go Errors Source Uploader.

Definition noPactl : goerror := ErrorString "exec: pactl: executable file not found".

Definition noXvfb : goerror := ErrorString "exec: Xvfb: executable file not found".

Definition envNoPulse : Env :=
  {| rand_Intn := 89; pactl_load := inl noPactl;
     xvfb_Start := None; chrome := fun _ => Fixtures.pageOk;
     json_Sprint := Fixtures.demo_Unmarshal |}.

Definition envNoDisplay : Env :=
  {| rand_Intn := 89; pactl_load := inr (String.append "23" newline);
     xvfb_Start := Some noXvfb; chrome := fun _ => Fixtures.pageOk;
     json_Sprint := Fixtures.demo_Unmarshal |}.

Definition browserCfg : Browser.BrowserConfig :=
  {| Browser.EnableChromeSandbox := false; Browser.Layout := "grid";
     Browser.WsUrl := "wss://example.org"; Browser.Token := "secret" |}.

(** A configuration that leaves the URL to be built from [BaseUrl]. *)
Definition cfgTemplate : PipelineConfig :=
  {| Info := {| EgressId := "EG_3" |}; WebUrl := EmptyString;
     BaseUrl := "https://example.org/?token=old"; Width := 1920;
     Height := 1080; Depth := 24; Insecure := false;
     AwaitStartSignal := false; Display := 0 |}.

(** Stand-ins for the URL functions of Go's library, enough to run
    [webUrl]: parsing keeps the text, and the query of every URL has a
    token and a debug parameter. *)
Definition demo_Parse (raw : string) : goerror + Browser.URL :=
  inr {| Browser.urlRest := raw; Browser.RawQuery := EmptyString |}.

Definition demo_Query (u : Browser.URL) : Browser.Values := {[ "token" := ["old"]; "debug" := ["1"] ]}.

Definition demo_Encode (v : Browser.Values) : string := EmptyString.

Definition demo_String (u : Browser.URL) : string := Browser.urlRest u.

(** The page loads, and its script logs the end sentinel while it does. *)
Definition pageEnds : ChromeEnv :=
  {| url_Parse := None; network_Enable := Returns Second None;
     navigate := Returns Second None; postNavigate := Returns 0 None;
     errString := EmptyString; console := [Fixtures.endEvent] |}.

Definition envEnds : Env := Fixtures.hostWith (fun _ => pageEnds).

(** A disk that holds the recording under the output directory already. *)
Definition diskInPlace : UWorld :=
  {| files := {[ "/out/recordings/a.mp4" := [x01; x02; x03]%byte ]}; ops := [] |}.

(** Two spellings of one path: what is written or removed through one
    shows under the other. *)
Definition spellings (k name : string) : bool :=
  (String.eqb k "/out/recordings/./a.mp4" && String.eqb name "/out/recordings/a.mp4")
  || (String.eqb k "/out/recordings/a.mp4" && String.eqb name "/out/recordings/./a.mp4").

Definition dotted : Faults :=
  {| mkdirAll_err := fun _ => None; open_err := fun _ => None;
     create_err := fun _ => None; copy_err := fun _ => None;
     stat_err := fun _ => None; remove_err := fun _ => None;
     sameFile := spellings; goneWith := fun name k => spellings k name |}.

(** A disk that holds the recording under the output directory; it is
    read under both spellings of its path. *)
Definition diskDotted : UWorld :=
  {| files := {[ "/out/recordings/a.mp4" := [x01; x02; x03]%byte;
                 "/out/recordings/./a.mp4" := [x01; x02; x03]%byte ]};
     ops := [] |}.

End Fixtures2.

(** * Properties *)

Import Go Errors Source.

(** ** Reading the world after an event *)

Lemma count_emit (f : Event -> bool) (e : Event) (w : World) :
  count f (emit e w) = (count f w + (if f e then 1 else 0))%nat.
Proof.
  unfold count, emit. rewrite List.filter_app, length_app. simpl.
  destruct (f e); reflexivity.
Qed.

Lemma live_emit (e : Event) (w : World) :
  live (emit e w) = step_live (live w) e.
Proof. unfold live, emit. rewrite fold_left_app. reflexivity. Qed.

Lemma exclusiveFrom_app (l : list Resource) (w1 w2 : World) :
  exclusiveFrom l (w1 ++ w2) =
  exclusiveFrom l w1 && exclusiveFrom (fold_left step_live w1 l) w2.
Proof.
  revert l. induction w1 as [|e w1 IH]; intros l; simpl.
  - reflexivity.
  - rewrite IH. rewrite andb_assoc. reflexivity.
Qed.

Lemma exclusive_emit (e : Event) (w : World) :
  exclusive (emit e w) =
  exclusive w &&
  (if isAllocation e then negb (existsb isBrowser (live w)) else true).
Proof.
  unfold exclusive, emit. rewrite exclusiveFrom_app. simpl.
  rewrite andb_true_r. reflexivity.
Qed.

Lemma release_last (r : Resource) (l : list Resource) :
  r ∉ l -> release r (l ++ [r]) = l.
Proof.
  intros Hr. unfold release. rewrite List.filter_app. simpl.
  rewrite bool_decide_eq_true_2 by reflexivity. simpl.
  rewrite app_nil_r.
  induction l as [|x l IH]; simpl; [reflexivity|].
  rewrite not_elem_of_cons in Hr. destruct Hr as [Hx Hl].
  rewrite bool_decide_eq_false_2 by congruence. simpl.
  rewrite IH by assumption. reflexivity.
Qed.

Ltac world_simpl :=
  repeat first [rewrite count_emit | rewrite exclusive_emit | rewrite live_emit].

(** ** Close *)

Lemma Close_fields (s : WebSource) (w : World) :
  (Close s w).1 = set_xvfb None (set_closeChrome None s).
Proof.
  unfold Close.
  destruct s as [ps [c|] [h|] sr er i]; simpl;
    destruct (String.eqb ps EmptyString); reflexivity.
Qed.

(** On the controller, a second [Close] changes nothing. *)
Lemma Close_state_idempotent (s : WebSource) (w w' : World) :
  (Close (Close s w).1 w').1 = (Close s w).1.
Proof. rewrite !Close_fields. reflexivity. Qed.

(** The browser and the display are torn down by the first [Close] only. *)
Lemma Close_again_leaves_browser_and_display (s : WebSource) (w w' : World) :
  count isCancel (Close (Close s w).1 w').2 = count isCancel w' /\
  count isKill (Close (Close s w).1 w').2 = count isKill w'.
Proof.
  rewrite Close_fields. unfold Close. simpl.
  destruct (String.eqb (pulseSink s) EmptyString); simpl;
    world_simpl; simpl; lia.
Qed.

(** The sink is unloaded by every [Close]: the field [pulseSink] is never
    reset. *)
Lemma Close_again_unloads_sink (s : WebSource) (w w' : World) :
  pulseSink s <> EmptyString ->
  (Close (Close s w).1 w').2 = emit (SinkUnload (pulseSink s)) w'.
Proof.
  intros Hne. rewrite Close_fields. unfold Close. simpl.
  apply String.eqb_neq in Hne. rewrite Hne. reflexivity.
Qed.

Lemma Close_counts (s : WebSource) (w : World) :
  count isKill (Close s w).2 =
    (count isKill w + (if xvfb s is Some _ then 1 else 0))%nat /\
  count isUnload (Close s w).2 =
    (count isUnload w + (if String.eqb (pulseSink s) EmptyString then 0 else 1))%nat /\
  count isCall (Close s w).2 = count isCall w.
Proof.
  unfold Close.
  destruct s as [ps [c|] [h|] sr er i]; simpl;
    destruct (String.eqb ps EmptyString); simpl;
    world_simpl; simpl; lia.
Qed.

(** C4: [Close] twice on a controller that holds a sink, a display and a
    browser.  The controller ends as after one [Close], the browser is
    cancelled once and the display killed once, but [pactl unload-module]
    runs once per call: the claim that every resource is torn down exactly
    once fails for the audio sink. *)
Theorem C4_Close_twice_unloads_sink_twice :
  let '(s1, w1) := Close Fixtures.ready [] in
  let '(s2, w2) := Close s1 w1 in
  s2 = s1 /\
  w1 = [ChromeCanceled 0%nat; XvfbKilled Fixtures.display99; SinkUnload "23"] /\
  w2 = w1 ++ [SinkUnload "23"] /\
  count isCancel w2 = 1%nat /\ count isKill w2 = 1%nat /\
  count isUnload w2 = 2%nat.
Proof. vm_compute. repeat split. Qed.

(** ** The signals *)

Lemma chan_le_refl (c : chan) : chan_le c c = true.
Proof. destruct c; reflexivity. Qed.

Lemma chan_le_trans (a b c : chan) :
  chan_le a b = true -> chan_le b c = true -> chan_le a c = true.
Proof. destruct a, b, c; simpl; congruence. Qed.

Lemma chan_le_closed (c : chan) : chan_le ChClosed c = true -> c = ChClosed.
Proof. destruct c; simpl; congruence. Qed.

Lemma chan_le_nil (c : chan) : chan_le ChNil c = true -> c = ChNil.
Proof. destruct c; simpl; congruence. Qed.

Lemma chan_le_ready (c c' : chan) :
  chan_le c c' = true -> recv_ready c = true -> c' = c.
Proof. destruct c, c'; simpl; congruence. Qed.

Lemma evolves_refl (s : WebSource) : evolves s s.
Proof. unfold evolves. rewrite !chan_le_refl. tauto. Qed.

Lemma evolves_trans (a b c : WebSource) :
  evolves a b -> evolves b c -> evolves a c.
Proof.
  unfold evolves. intros (?&?&?&?&?&?) (?&?&?&?&?&?).
  repeat split; try congruence; eapply chan_le_trans; eassumption.
Qed.

Section Signals.

Context {iface : Type}.
Variable json_Unmarshal : list byte -> option iface.
Variable fmt_Sprint : iface -> string.

Abbreviation onArg := (onArg json_Unmarshal fmt_Sprint).
Abbreviation onArgs := (onArgs json_Unmarshal fmt_Sprint).
Abbreviation listener := (listener json_Unmarshal fmt_Sprint).
Abbreviation dispatch := (dispatch json_Unmarshal fmt_Sprint).
Abbreviation printsAs := (printsAs json_Unmarshal fmt_Sprint).
Abbreviation mentions := (mentions json_Unmarshal fmt_Sprint).

Lemma onArg_evolves (s : WebSource) (arg : RemoteObject) :
  exists s', onArg s arg = Some s' /\ evolves s s'.
Proof.
  unfold onArg.
  destruct (json_Unmarshal (Value arg)) as [val|];
    [|eexists; split; [reflexivity|apply evolves_refl]].
  simpl.
  destruct (String.eqb (fmt_Sprint val) startRecordingLog).
  - destruct s as [ps x cc [| |] er i]; simpl;
      eexists; (split; [reflexivity|]);
      unfold evolves; simpl; rewrite ?chan_le_refl; tauto.
  - destruct (String.eqb (fmt_Sprint val) endRecordingLog).
    + destruct s as [ps x cc sr [| |] i]; simpl;
        eexists; (split; [reflexivity|]);
        unfold evolves; simpl; rewrite ?chan_le_refl; tauto.
    + eexists; split; [reflexivity|apply evolves_refl].
Qed.

Lemma onArgs_evolves (args : list RemoteObject) (s : WebSource) :
  exists s', onArgs s args = Some s' /\ evolves s s'.
Proof.
  revert s. induction args as [|arg rest IH]; intros s; simpl.
  - eexists; split; [reflexivity|apply evolves_refl].
  - destruct (onArg_evolves s arg) as (s1 & E1 & H1). rewrite E1. simpl.
    destruct (IH s1) as (s2 & E2 & H2).
    exists s2. split; [assumption|]. eapply evolves_trans; eassumption.
Qed.

Lemma listener_evolves (s : WebSource) (ev : TargetEvent) :
  exists s', listener s ev = Some s' /\ evolves s s'.
Proof.
  destruct ev; simpl;
    try (eexists; split; [reflexivity|apply evolves_refl]).
  apply onArgs_evolves.
Qed.

Lemma dispatch_evolves (evs : list TargetEvent) (s : WebSource) :
  exists s', dispatch s evs = Some s' /\ evolves s s'.
Proof.
  revert s. induction evs as [|ev rest IH]; intros s; simpl.
  - eexists; split; [reflexivity|apply evolves_refl].
  - destruct (listener_evolves s ev) as (s1 & E1 & H1). rewrite E1. simpl.
    destruct (IH s1) as (s2 & E2 & H2).
    exists s2. split; [assumption|]. eapply evolves_trans; eassumption.
Qed.

(** A sentinel whose channel is closed already, or nil, does nothing. *)
Lemma onArg_start_again (s : WebSource) (arg : RemoteObject) :
  printsAs startRecordingLog arg = true ->
  startRecording s <> ChOpen ->
  onArg s arg = Some s.
Proof.
  unfold printsAs, printed, onArg.
  destruct (json_Unmarshal (Value arg)) as [val|]; simpl; [|discriminate].
  intros ->. destruct s as [ps x cc [| |] er i]; simpl; congruence.
Qed.

Lemma onArg_end_again (s : WebSource) (arg : RemoteObject) :
  printsAs endRecordingLog arg = true ->
  endRecording s <> ChOpen ->
  onArg s arg = Some s.
Proof.
  unfold printsAs, printed, onArg.
  destruct (json_Unmarshal (Value arg)) as [val|]; simpl; [|discriminate].
  intros Hend.
  destruct (String.eqb (fmt_Sprint val) startRecordingLog) eqn:Hstart.
  - apply String.eqb_eq in Hstart, Hend. rewrite Hstart in Hend. discriminate.
  - rewrite Hend. destruct s as [ps x cc sr [| |] i]; simpl; congruence.
Qed.

Lemma onArg_not_end (s : WebSource) (arg : RemoteObject) :
  startRecording s = ChNil ->
  printsAs endRecordingLog arg = false ->
  onArg s arg = Some s.
Proof.
  unfold printsAs, printed, onArg. intros Hnil.
  destruct (json_Unmarshal (Value arg)) as [val|]; simpl; [|reflexivity].
  intros ->. rewrite Hnil. simpl.
  destruct (String.eqb (fmt_Sprint val) startRecordingLog); reflexivity.
Qed.

Lemma onArgs_not_end (args : list RemoteObject) (s : WebSource) :
  startRecording s = ChNil ->
  existsb (printsAs endRecordingLog) args = false ->
  onArgs s args = Some s.
Proof.
  intros Hnil. induction args as [|arg rest IH]; simpl; [reflexivity|].
  intros H. apply orb_false_iff in H as [Ha Hrest].
  rewrite (onArg_not_end s arg Hnil Ha). simpl. apply IH. assumption.
Qed.

(** C5: over every sequence of browser events the listener never panics,
    and each of the two channels either stays as it is or goes from open
    to closed, so a closed channel stays closed: the end sentinel does not
    reset the start signal.  A sentinel whose signal has occurred already
    leaves the controller as it is. *)
Theorem C5_signals_flip_at_most_once (s : WebSource) :
  (forall evs : list TargetEvent,
      exists s', dispatch s evs = Some s' /\
        chan_le (startRecording s) (startRecording s') = true /\
        chan_le (endRecording s) (endRecording s') = true /\
        (recv_ready (startRecording s) = true ->
         recv_ready (startRecording s') = true) /\
        (recv_ready (endRecording s) = true ->
         recv_ready (endRecording s') = true)) /\
  (forall arg : RemoteObject,
      printsAs startRecordingLog arg = true ->
      recv_ready (startRecording s) = true ->
      listener s (EventConsoleAPICalled [arg]) = Some s) /\
  (forall arg : RemoteObject,
      printsAs endRecordingLog arg = true ->
      recv_ready (endRecording s) = true ->
      listener s (EventConsoleAPICalled [arg]) = Some s).
Proof.
  split; [|split].
  - intros evs. destruct (dispatch_evolves evs s) as (s' & E & H).
    destruct H as (_&_&_&_&Hs&He).
    exists s'. repeat split; try assumption.
    + intros R. rewrite (chan_le_ready _ _ Hs R). assumption.
    + intros R. rewrite (chan_le_ready _ _ He R). assumption.
  - intros arg Hp R. simpl. rewrite onArg_start_again; try assumption.
    + reflexivity.
    + intros Ho. rewrite Ho in R. discriminate.
  - intros arg Hp R. simpl. rewrite onArg_end_again; try assumption.
    + reflexivity.
    + intros Ho. rewrite Ho in R. discriminate.
Qed.

(** C9: on a controller whose start channel is nil, no event makes the
    listener panic or gives the controller a start channel; an event
    that does not carry the end sentinel leaves the controller exactly as
    it is, and so does every argument that prints as the start
    sentinel. *)
Theorem C9_start_sentinel_ignored_without_gating
    (s : WebSource) (ev : TargetEvent) :
  startRecording s = ChNil ->
  (exists s', listener s ev = Some s' /\ startRecording s' = ChNil) /\
  (mentions endRecordingLog ev = false -> listener s ev = Some s) /\
  (forall arg : RemoteObject,
      printsAs startRecordingLog arg = true -> onArg s arg = Some s).
Proof.
  intros Hnil. split; [|split].
  - destruct (listener_evolves s ev) as (s' & E & H).
    exists s'. split; [assumption|].
    destruct H as (_&_&_&_&Hs&_). rewrite Hnil in Hs.
    apply chan_le_nil. assumption.
  - destruct ev; simpl; try reflexivity.
    apply onArgs_not_end. assumption.
  - intros arg Hp. apply onArg_start_again; [assumption|].
    rewrite Hnil. discriminate.
Qed.

End Signals.

(** ** The listener during an attempt *)

Lemma listen_evolves (sprint : list byte -> option string) (s : WebSource)
    (evs : list TargetEvent) :
  dispatch sprint (fun val => val) s evs = Some (listen sprint s evs) /\
  evolves s (listen sprint s evs).
Proof.
  unfold listen.
  destruct (dispatch_evolves sprint (fun val => val) evs s) as (s' & E & H).
  rewrite E. simpl. split; [reflexivity|assumption].
Qed.

(** The listener leaves a controller as it is, but for its channels. *)
Lemma evolves_channels (s s' : WebSource) :
  evolves s s' ->
  s' = set_endRecording (endRecording s') (set_startRecording (startRecording s') s).
Proof.
  intros (Hp & Hx & Hc & Hi & _ & _).
  destruct s, s'; simpl in *. subst. reflexivity.
Qed.

Ltac ws_simpl :=
  cbn [closeChrome xvfb pulseSink info startRecording endRecording
       set_closeChrome set_xvfb set_pulseSink set_startRecording
       set_endRecording].

(** ** Construction: facts shared by the retry loops *)

Ltac release_simpl :=
  unfold release; simpl;
  repeat (case_bool_decide; try congruence; simpl).

(** The inter-attempt sleep is there or not; either way it neither
    creates nor destroys anything. *)
Ltac pause_cases :=
  match goal with
  | |- context [if ?b then emit (Slept _) _ else _] => destruct b
  end.

(** An error that an attempt ends with is never an [ErrExhaustedRetries]. *)
Lemma awaitChrome_plain (c : Completion) (e : error) :
  (forall t e', c = Done t (Some e') -> isExhaustedRetries e' = false) ->
  awaitChrome c = Some e -> isExhaustedRetries e = false.
Proof.
  intros Hc. destruct c as [t [e'|]|]; simpl.
  - destruct (t <? chromeTimeout); intros [= <-]; [eapply Hc|]; reflexivity.
  - destruct (t <? chromeTimeout); [discriminate|]. intros [= <-]. reflexivity.
  - intros [= <-]. reflexivity.
Qed.

Lemma Rev1_attemptError_plain (env : Env) (p : PipelineConfig) (a : nat) (e : error) :
  Rev1.attemptError env p a = Some e -> isExhaustedRetries e = false.
Proof.
  unfold Rev1.attemptError. apply awaitChrome_plain. intros t e'.
  unfold Rev1.outcome, Rev1.runChrome.
  destruct (buildUrl p (chrome env a)); [intros [= _ <-]; reflexivity|].
  destruct (withTimeout Rev1.navigationTimeout (navigate (chrome env a)))
    as [t0 [err|]].
  - destruct (isDeadlineExceeded err); [intros [= _ <-]; reflexivity|].
    destruct (HasPrefix (Error err) chromeFailedToStart);
      intros [= _ <-]; reflexivity.
  - destruct (postNavigate (chrome env a)) as [t' [err|]|]; try discriminate.
    + intros [= _ <-]; reflexivity.
    + destruct (String.eqb _ _); [discriminate|intros [= _ <-]; reflexivity].
Qed.

Lemma Rev2_attemptError_plain (env : Env) (p : PipelineConfig) (a : nat) (e : error) :
  Rev2.attemptError env p a = Some e -> isExhaustedRetries e = false.
Proof.
  unfold Rev2.attemptError. apply awaitChrome_plain. intros t e'.
  unfold Rev2.outcome, Rev2.runChrome.
  destruct (buildUrl p (chrome env a)); [intros [= _ <-]; reflexivity|].
  destruct (network_Enable (chrome env a)) as [t0 [err|]|]; try discriminate.
  - intros [= _ <-]; reflexivity.
  - destruct (navigate (chrome env a)) as [t' [err|]|]; try discriminate.
    + destruct (HasPrefix (Error err) chromeFailedToStart);
        [intros [= _ <-]; reflexivity|].
      destruct (String.eqb _ _); [discriminate|intros [= _ <-]; reflexivity].
    + destruct (String.eqb _ _); [discriminate|intros [= _ <-]; reflexivity].
Qed.

Lemma Rev1_attemptError_Display (env : Env) (p : PipelineConfig) (d : Z) (a : nat) :
  Rev1.attemptError env (set_Display d p) a = Rev1.attemptError env p a.
Proof. reflexivity. Qed.

(** A call of [launchChrome] reports what [outcome] says; when the URL
    is built it allocates a browser, and the controller comes back with
    the cancel function of that browser and with channels that the
    listener may have closed. *)
Lemma Rev1_launchChrome_spec (sprint : list byte -> option string)
    (s : WebSource) (p : PipelineConfig) (i : bool)
    (ce : ChromeEnv) (w : World) :
  exists sr er,
    chan_le (startRecording s) sr = true /\
    chan_le (endRecording s) er = true /\
    Rev1.launchChrome sprint s p i ce w =
    match buildUrl p ce with
    | Some _ => (Rev1.outcome p ce, s, w)
    | None =>
        (Rev1.outcome p ce,
         set_endRecording er
           (set_startRecording sr (set_closeChrome (Some (fresh w)) s)),
         emit (ChromeAllocated (fresh w)) w)
    end.
Proof.
  unfold Rev1.launchChrome, Rev1.outcome, allocChrome.
  destruct (buildUrl p ce).
  - exists (startRecording s), (endRecording s).
    rewrite !chan_le_refl. repeat split.
  - destruct (listen_evolves sprint (set_closeChrome (Some (fresh w)) s)
                (console ce)) as [_ H].
    exists (startRecording (listen sprint (set_closeChrome (Some (fresh w)) s)
                              (console ce))),
           (endRecording (listen sprint (set_closeChrome (Some (fresh w)) s)
                            (console ce))).
    pose proof (evolves_channels _ _ H) as E.
    destruct H as (_ & _ & _ & _ & Hs & He).
    split; [exact Hs|]. split; [exact He|].
    cbv zeta. rewrite <- E. reflexivity.
Qed.

Ltac launch1 :=
  match goal with
  | |- context [Rev1.launchChrome ?d ?s ?p ?i ?ce ?w] =>
      let sr := fresh "sr" in
      let er := fresh "er" in
      let Hsr := fresh "Hsr" in
      let Her := fresh "Her" in
      destruct (Rev1_launchChrome_spec d s p i ce w) as (sr & er & Hsr & Her & ->)
  end.

Lemma Rev2_attemptError_Display (env : Env) (p : PipelineConfig) (d : Z) (a : nat) :
  Rev2.attemptError env (set_Display d p) a = Rev2.attemptError env p a.
Proof. reflexivity. Qed.

Lemma Rev2_launchChrome_spec (sprint : list byte -> option string)
    (s : WebSource) (p : PipelineConfig) (i : bool)
    (ce : ChromeEnv) (w : World) :
  exists sr er,
    chan_le (startRecording s) sr = true /\
    chan_le (endRecording s) er = true /\
    Rev2.launchChrome sprint s p i ce w =
    match buildUrl p ce with
    | Some _ => (Rev2.outcome p ce, s, w)
    | None =>
        (Rev2.outcome p ce,
         set_endRecording er
           (set_startRecording sr (set_closeChrome (Some (fresh w)) s)),
         emit (ChromeAllocated (fresh w)) w)
    end.
Proof.
  unfold Rev2.launchChrome, Rev2.outcome, allocChrome.
  destruct (buildUrl p ce).
  - exists (startRecording s), (endRecording s).
    rewrite !chan_le_refl. repeat split.
  - cbv zeta. destruct (Rev2.listening ce).
    + destruct (listen_evolves sprint (set_closeChrome (Some (fresh w)) s)
                  (console ce)) as [_ H].
      exists (startRecording (listen sprint (set_closeChrome (Some (fresh w)) s)
                                (console ce))),
             (endRecording (listen sprint (set_closeChrome (Some (fresh w)) s)
                              (console ce))).
      pose proof (evolves_channels _ _ H) as E.
      destruct H as (_ & _ & _ & _ & Hs & He).
      split; [exact Hs|]. split; [exact He|].
      rewrite <- E. reflexivity.
    + exists (startRecording s), (endRecording s).
      rewrite !chan_le_refl. split; [reflexivity|]. split; [reflexivity|].
      destruct s; reflexivity.
Qed.

Ltac launch2 :=
  match goal with
  | |- context [Rev2.launchChrome ?d ?s ?p ?i ?ce ?w] =>
      let sr := fresh "sr" in
      let er := fresh "er" in
      let Hsr := fresh "Hsr" in
      let Her := fresh "Her" in
      destruct (Rev2_launchChrome_spec d s p i ce w) as (sr & er & Hsr & Her & ->)
  end.

(** ** The second revision keeps the resources balanced *)

Lemma Rev2_chromeLoop_balanced (env : Env) (p : PipelineConfig)
    (name : string) (c : Cmd) (todo : nat) :
  forall (attempt : nat) (err : option error) (s : WebSource) (w : World),
    name <> EmptyString ->
    pulseSink s = name -> xvfb s = Some c -> closeChrome s = None ->
    live w = [RSink name; RXvfb c] -> exclusive w = true ->
    (todo = 0%nat -> err <> None) ->
    match Rev2.chromeLoop todo attempt env p err s w with
    | (Some s', None, w') =>
        pulseSink s' = name /\ xvfb s' = Some c /\
        exists h, closeChrome s' = Some h /\
                  live w' = [RSink name; RXvfb c; RChrome h] /\
                  exclusive w' = true
    | (None, Some _, w') => live w' = [] /\ exclusive w' = true
    | _ => False
    end.
Proof.
  induction todo as [|todo IH]; intros attempt err s w Hne Hps Hx Hcc Hlive Hex Herr.
  - simpl. unfold Close. rewrite Hcc, Hx. simpl. rewrite Hps.
    apply String.eqb_neq in Hne. rewrite Hne.
    destruct err as [e|]; [|exfalso; apply Herr; reflexivity].
    world_simpl. rewrite Hlive, Hex. simpl. split; [|reflexivity].
    release_simpl. reflexivity.
  - simpl. launch2.
    destruct (buildUrl p (chrome env attempt)) eqn:Hurl.
    + destruct (awaitChrome (Rev2.outcome p (chrome env attempt))) as [e|] eqn:Ha.
      * unfold Rev2.cancelChrome. rewrite Hcc.
        apply IH; try assumption; try (intros _; discriminate);
          pause_cases; world_simpl; rewrite ?Hlive, ?Hex; reflexivity.
      * exfalso. unfold Rev2.outcome in Ha. rewrite Hurl in Ha.
        simpl in Ha. discriminate.
    + destruct (awaitChrome (Rev2.outcome p (chrome env attempt))) as [e|] eqn:Ha.
      * unfold Rev2.cancelChrome. ws_simpl.
        apply IH; try assumption; try reflexivity;
          try (intros _; discriminate);
          pause_cases; world_simpl; rewrite ?Hlive, ?Hex; simpl;
          release_simpl; reflexivity.
      * simpl. repeat split; try assumption.
        eexists. split; [reflexivity|].
        world_simpl. rewrite Hlive, Hex. simpl. split; reflexivity.
Qed.

(** The second revision returns a controller that holds its three
    resources and nothing else, or no controller and nothing live; no
    browser is ever allocated while another one is live.  [pactl
    load-module] prints the index of the module it loaded, so the sink name
    is taken not to be empty. *)
Lemma Rev2_NewWebSource_all_or_nothing (env : Env) (p : PipelineConfig) :
  (forall out, pactl_load env = inr out -> TrimRight out newline <> EmptyString) ->
  match Rev2.NewWebSource env p with
  | (Some s, None, w) =>
      pulseSink s <> EmptyString /\
      exists c h, xvfb s = Some c /\ closeChrome s = Some h /\
                  live w = [RSink (pulseSink s); RXvfb c; RChrome h] /\
                  exclusive w = true
  | (None, Some _, w) => live w = [] /\ exclusive w = true
  | _ => False
  end.
Proof.
  intros Hname. unfold Rev2.NewWebSource, createPulseSink, launchXvfb.
  destruct (pactl_load env) as [err|out] eqn:Hp.
  - destruct (AwaitStartSignal _); simpl; split; reflexivity.
  - specialize (Hname out eq_refl).
    destruct (xvfb_Start env) as [err|].
    + unfold Close.
      destruct (AwaitStartSignal _); simpl;
        apply String.eqb_neq in Hname; rewrite Hname;
        (split; [|reflexivity]); unfold live; simpl; release_simpl; reflexivity.
    + match goal with
      | |- context [Rev2.chromeLoop ?n ?a env ?p' None ?s ?w] =>
          pose proof (Rev2_chromeLoop_balanced env p' (TrimRight out newline)
                        {| cmdDisplay := Display p';
                           cmdDims := (Width p', Height p', Depth p') |}
                        n a None s w Hname) as H;
          destruct (Rev2.chromeLoop n a env p' None s w) as [[[s'|] [e|]] w']
      end.
      all: destruct (AwaitStartSignal _); simpl in H;
        specialize (H eq_refl eq_refl eq_refl eq_refl eq_refl);
        (assert (Rev2.maxRetries = 0%nat -> @None error <> None) as H0
           by (unfold Rev2.maxRetries; discriminate));
        specialize (H H0); try contradiction; try assumption.
      all: destruct H as (Hps & Hx & h & Hcc & Hl & He);
        (split; [rewrite Hps; assumption|]);
        eexists _, h; rewrite Hps; repeat split; eassumption.
Qed.

(** ** Counting the attempts *)

Lemma Rev1_chromeLoop_exhausted (env : Env) (p : PipelineConfig) (todo : nat) :
  forall (attempt : nat) (err : option error) (s : WebSource) (w : World),
    (forall a, (attempt <= a < attempt + todo)%nat ->
               Rev1.attemptError env p a <> None) ->
    exists w',
      Rev1.chromeLoop todo attempt env p err s w =
        (None,
         match todo with
         | O => err
         | S k => Rev1.attemptError env p (attempt + k)
         end, w') /\
      count isCall w' = (count isCall w + todo)%nat /\
      count isKill w' =
        (count isKill w + (if xvfb s is Some _ then 1 else 0))%nat /\
      count isUnload w' =
        (count isUnload w +
         (if String.eqb (pulseSink s) EmptyString then 0 else 1))%nat.
Proof.
  induction todo as [|todo IH]; intros attempt err s w Hfail.
  - simpl. destruct (Close s w) as [s' w'] eqn:E.
    exists w'. pose proof (Close_counts s w) as H. rewrite E in H. simpl in H.
    destruct H as (Hk & Hu & Hc). repeat split; try assumption. lia.
  - simpl. launch1.
    pose proof (Hfail attempt ltac:(lia)) as Hnow.
    unfold Rev1.attemptError in Hnow.
    destruct (awaitChrome (Rev1.outcome p (chrome env attempt))) as [e|] eqn:Ha;
      [clear Hnow|contradiction].
    assert (forall a, (S attempt <= a < S attempt + todo)%nat ->
                      Rev1.attemptError env p a <> None) as Hrest
      by (intros a Hr; apply Hfail; lia).
    assert (match todo with
            | O => Some e
            | S k => Rev1.attemptError env p (S attempt + k)
            end = Rev1.attemptError env p (attempt + todo)) as Herr.
    { destruct todo as [|k].
      - unfold Rev1.attemptError. rewrite Nat.add_0_r, Ha. reflexivity.
      - f_equal. lia. }
    destruct (buildUrl p (chrome env attempt)); rewrite Ha; pause_cases;
      match goal with
      | |- context [Rev1.chromeLoop todo (S attempt) env p (Some e) ?s1 ?w1] =>
          destruct (IH (S attempt) (Some e) s1 w1 Hrest) as (w' & E & Hc & Hk & Hu)
      end;
      exists w'; rewrite E, Herr; revert Hc Hk Hu; world_simpl; simpl;
      intros Hc Hk Hu; repeat split; lia.
Qed.

Lemma Rev2_chromeLoop_exhausted (env : Env) (p : PipelineConfig) (todo : nat) :
  forall (attempt : nat) (err : option error) (s : WebSource) (w : World),
    (forall a, (attempt <= a < attempt + todo)%nat ->
               Rev2.attemptError env p a <> None) ->
    exists w',
      Rev2.chromeLoop todo attempt env p err s w =
        (None,
         match todo with
         | O => err
         | S k => Rev2.attemptError env p (attempt + k)
         end, w') /\
      count isCall w' = (count isCall w + todo)%nat /\
      count isKill w' =
        (count isKill w + (if xvfb s is Some _ then 1 else 0))%nat /\
      count isUnload w' =
        (count isUnload w +
         (if String.eqb (pulseSink s) EmptyString then 0 else 1))%nat.
Proof.
  induction todo as [|todo IH]; intros attempt err s w Hfail.
  - simpl. destruct (Close s w) as [s' w'] eqn:E.
    exists w'. pose proof (Close_counts s w) as H. rewrite E in H. simpl in H.
    destruct H as (Hk & Hu & Hc). repeat split; try assumption. lia.
  - simpl. launch2.
    pose proof (Hfail attempt ltac:(lia)) as Hnow.
    unfold Rev2.attemptError in Hnow.
    destruct (awaitChrome (Rev2.outcome p (chrome env attempt))) as [e|] eqn:Ha;
      [clear Hnow|contradiction].
    assert (forall a, (S attempt <= a < S attempt + todo)%nat ->
                      Rev2.attemptError env p a <> None) as Hrest
      by (intros a Hr; apply Hfail; lia).
    assert (match todo with
            | O => Some e
            | S k => Rev2.attemptError env p (S attempt + k)
            end = Rev2.attemptError env p (attempt + todo)) as Herr.
    { destruct todo as [|k].
      - unfold Rev2.attemptError. rewrite Nat.add_0_r, Ha. reflexivity.
      - f_equal. lia. }
    unfold Rev2.cancelChrome.
    destruct (buildUrl p (chrome env attempt)); rewrite Ha;
      ws_simpl;
      try destruct (closeChrome s); pause_cases;
      match goal with
      | |- context [Rev2.chromeLoop todo (S attempt) env p (Some e) ?s1 ?w1] =>
          destruct (IH (S attempt) (Some e) s1 w1 Hrest) as (w' & E & Hc & Hk & Hu)
      end;
      exists w'; rewrite E, Herr; revert Hc Hk Hu; world_simpl; simpl;
      intros Hc Hk Hu; repeat split; lia.
Qed.

Lemma Rev2_chromeLoop_succeeds (env : Env) (p : PipelineConfig) (k : nat) :
  forall (todo attempt : nat) (err : option error) (s : WebSource) (w : World),
    (k < todo)%nat ->
    (forall a, (attempt <= a < attempt + k)%nat ->
               Rev2.attemptError env p a <> None) ->
    Rev2.attemptError env p (attempt + k) = None ->
    exists s' w',
      Rev2.chromeLoop todo attempt env p err s w = (Some s', None, w') /\
      count isCall w' = (count isCall w + S k)%nat.
Proof.
  induction k as [|k IH]; intros todo attempt err s w Hk Hfail Hok;
    (destruct todo as [|todo]; [lia|]); simpl; launch2.
  - rewrite Nat.add_0_r in Hok. unfold Rev2.attemptError in Hok.
    destruct (buildUrl p (chrome env attempt)); rewrite Hok;
      eexists _, _; (split; [reflexivity|]); world_simpl; simpl; lia.
  - pose proof (Hfail attempt ltac:(lia)) as Hnow.
    unfold Rev2.attemptError in Hnow.
    destruct (awaitChrome (Rev2.outcome p (chrome env attempt))) as [e|] eqn:Ha;
      [clear Hnow|contradiction].
    assert (forall a, (S attempt <= a < S attempt + k)%nat ->
                      Rev2.attemptError env p a <> None) as Hrest
      by (intros a Hr; apply Hfail; lia).
    assert (Rev2.attemptError env p (S attempt + k) = None) as Hok'
      by (rewrite <- Hok; f_equal; lia).
    unfold Rev2.cancelChrome.
    destruct (buildUrl p (chrome env attempt)); rewrite Ha;
      ws_simpl;
      try destruct (closeChrome s); pause_cases;
      match goal with
      | |- context [Rev2.chromeLoop todo (S attempt) env p (Some e) ?s1 ?w1] =>
          destruct (IH todo (S attempt) (Some e) s1 w1 ltac:(lia) Hrest Hok')
            as (s' & w' & E & Hc)
      end;
      exists s', w'; rewrite E; (split; [reflexivity|]);
      revert Hc; world_simpl; simpl; lia.
Qed.

(** With a browser that fails four times and then succeeds, the second
    revision returns a controller after exactly five calls of
    [launchChrome], and no browser is allocated while an earlier one is
    live. *)
Lemma Rev2_retries_until_last_attempt (env : Env) (p : PipelineConfig) (out : string) :
  pactl_load env = inr out -> TrimRight out newline <> EmptyString ->
  xvfb_Start env = None ->
  (forall a, (1 <= a < 5)%nat -> Rev2.attemptError env p a <> None) ->
  Rev2.attemptError env p 5 = None ->
  exists s w c h,
    Rev2.NewWebSource env p = (Some s, None, w) /\
    count isCall w = 5%nat /\ exclusive w = true /\
    live w = [RSink (pulseSink s); RXvfb c; RChrome h].
Proof.
  intros Hp Hname Hx Hfail Hok.
  pose proof (Rev2_NewWebSource_all_or_nothing env p) as Hall.
  unfold Rev2.NewWebSource, createPulseSink, launchXvfb in *.
  rewrite Hp, Hx in *.
  match goal with
  | |- context [Rev2.chromeLoop ?n ?a env ?p' None ?s ?w] =>
      destruct (Rev2_chromeLoop_succeeds env p' 4 n a None s w
                  ltac:(unfold Rev2.maxRetries; lia) Hfail Hok)
        as (s' & w' & E & Hc)
  end.
  rewrite E in *.
  destruct Hall as (_ & c & h & _ & _ & Hl & He).
  { intros out' [= <-]. assumption. }
  exists s', w', c, h. repeat split; assumption.
Qed.

(** ** The start channel of a new controller *)

Lemma Rev1_chromeLoop_channels (env : Env) (p : PipelineConfig) (todo : nat) :
  forall (attempt : nat) (err : option error) (s s' : WebSource)
         (e : option error) (w w' : World),
    Rev1.chromeLoop todo attempt env p err s w = (Some s', e, w') ->
    chan_le (startRecording s) (startRecording s') = true /\
    chan_le (endRecording s) (endRecording s') = true.
Proof.
  induction todo as [|todo IH]; intros attempt err s s' e w w'; simpl.
  - destruct (Close s w). discriminate.
  - launch1.
    destruct (buildUrl p (chrome env attempt));
      destruct (awaitChrome _);
      try (intros H; apply IH in H; revert H; ws_simpl; intros [H1 H2];
           split; first [assumption | eapply chan_le_trans; eassumption]);
      intros [= <- _ _]; ws_simpl; split;
      first [assumption | apply chan_le_refl].
Qed.

Lemma Rev2_chromeLoop_channels (env : Env) (p : PipelineConfig) (todo : nat) :
  forall (attempt : nat) (err : option error) (s s' : WebSource)
         (e : option error) (w w' : World),
    Rev2.chromeLoop todo attempt env p err s w = (Some s', e, w') ->
    chan_le (startRecording s) (startRecording s') = true /\
    chan_le (endRecording s) (endRecording s') = true.
Proof.
  induction todo as [|todo IH]; intros attempt err s s' e w w'; simpl.
  - destruct (Close s w). discriminate.
  - launch2. unfold Rev2.cancelChrome.
    destruct (buildUrl p (chrome env attempt));
      destruct (awaitChrome _); ws_simpl;
      try destruct (closeChrome s);
      try (intros H; apply IH in H; revert H; ws_simpl; intros [H1 H2];
           split; first [assumption | eapply chan_le_trans; eassumption]);
      intros [= <- _ _]; ws_simpl; split;
      first [assumption | apply chan_le_refl].
Qed.

(** The start channel of a controller that [NewWebSource] returns is the
    one that was made, or not made, before the first attempt; the listener
    may have closed it since. *)
Lemma Rev1_NewWebSource_start (env : Env) (p : PipelineConfig)
    (s : WebSource) (e : option error) (w : World) :
  Rev1.NewWebSource env p = (Some s, e, w) ->
  chan_le (if AwaitStartSignal p then ChOpen else ChNil) (startRecording s) = true.
Proof.
  unfold Rev1.NewWebSource, createPulseSink, launchXvfb.
  destruct (pactl_load env); [destruct (Close _ _); discriminate|].
  destruct (xvfb_Start env); [destruct (Close _ _); discriminate|].
  intros H. apply Rev1_chromeLoop_channels in H. destruct H as [H _].
  revert H. simpl. destruct (AwaitStartSignal p); intros H; exact H.
Qed.

Lemma Rev2_NewWebSource_start (env : Env) (p : PipelineConfig)
    (s : WebSource) (e : option error) (w : World) :
  Rev2.NewWebSource env p = (Some s, e, w) ->
  chan_le (if AwaitStartSignal p then ChOpen else ChNil) (startRecording s) = true.
Proof.
  unfold Rev2.NewWebSource, createPulseSink, launchXvfb.
  destruct (pactl_load env); [destruct (Close _ _); discriminate|].
  destruct (xvfb_Start env); [destruct (Close _ _); discriminate|].
  intros H. apply Rev2_chromeLoop_channels in H. destruct H as [H _].
  revert H. simpl. destruct (AwaitStartSignal p); intros H; exact H.
Qed.

Lemma chan_le_open (c : chan) : chan_le ChOpen c = true -> non_nil c = true.
Proof. destruct c; simpl; congruence. Qed.

(** ** Construction: the claims *)

(** C1: the first revision, with a browser that loads a page showing an
    error at every attempt.  [NewWebSource] returns no controller and an
    error, after three calls of [launchChrome] and a single cancellation:
    the browsers of the first two attempts are still live.  The claim
    that every allocated handle is torn down on the failure path fails
    there; the second revision satisfies it
    ([Rev2_NewWebSource_all_or_nothing]). *)
Theorem C1_Rev1_leaks_browsers_on_failure :
  exists w,
    Rev1.NewWebSource Fixtures.envAlwaysFails Fixtures.cfg =
      (None, Some (ErrPageLoadFailed "room not found"), w) /\
    count isCall w = 3%nat /\ count isCancel w = 1%nat /\
    live w = [RChrome 0%nat; RChrome 1%nat].
Proof. eexists. vm_compute. repeat split. Qed.

(** C2: the first revision, with a browser that fails twice and succeeds
    at the third and last attempt.  [NewWebSource] succeeds after three
    calls of [launchChrome], but no browser is cancelled between the
    attempts: the second and the third are allocated while the earlier
    ones are live, and three browsers are live at the end.  The second
    revision cancels each of them ([Rev2_retries_until_last_attempt]). *)
Theorem C2_Rev1_keeps_failed_browsers :
  exists s w,
    Rev1.NewWebSource (Fixtures.envSucceedsAt 3) Fixtures.cfg = (Some s, None, w) /\
    count isCall w = 3%nat /\ count isCancel w = 0%nat /\
    exclusive w = false /\
    live w = [RSink "23"; RXvfb Fixtures.display99;
              RChrome 0%nat; RChrome 1%nat; RChrome 2%nat].
Proof. eexists _, _. vm_compute. repeat split. Qed.

(** C3, as the claim states it, fails: with a browser that hangs at every
    attempt, both revisions return the error of the last attempt itself,
    which is not an [ErrExhaustedRetries]. *)
Lemma C3_counterexample :
  (exists w, Rev1.NewWebSource Fixtures.envAlwaysHangs Fixtures.cfg =
             (None, Some (ErrPageLoadFailed "timed out"), w)) /\
  (exists w, Rev2.NewWebSource Fixtures.envAlwaysHangs Fixtures.cfg =
             (None, Some (ErrPageLoadFailed "timed out"), w)) /\
  ~ (exists last, ErrPageLoadFailed "timed out" = ErrExhaustedRetries last).
Proof.
  split; [|split].
  - eexists. vm_compute. reflexivity.
  - eexists. vm_compute. reflexivity.
  - intros [last H]. discriminate.
Qed.

(** C3, amended: when the sink and the display start, pactl having
    printed a sink name that is not empty once its trailing newlines are
    trimmed, and every attempt fails, [NewWebSource] calls [launchChrome]
    exactly [maxRetries] times (3 in the first revision, 5 in the second)
    and returns no controller and the error of the last attempt, as it is
    and never an [ErrExhaustedRetries]; the display is killed exactly once
    and the sink unloaded exactly once.  (With an empty name [Close] skips
    the unload.) *)
Theorem C3_exhaustion_returns_last_error
    (env : Env) (p : PipelineConfig) (out : string) :
  pactl_load env = inr out ->
  TrimRight out newline <> EmptyString ->
  xvfb_Start env = None ->
  ((forall a, (1 <= a <= 3)%nat -> Rev1.attemptError env p a <> None) ->
   exists e w,
     Rev1.NewWebSource env p = (None, Some e, w) /\
     Rev1.attemptError env p 3 = Some e /\ isExhaustedRetries e = false /\
     count isCall w = 3%nat /\ count isKill w = 1%nat /\
     count isUnload w = 1%nat) /\
  ((forall a, (1 <= a <= 5)%nat -> Rev2.attemptError env p a <> None) ->
   exists e w,
     Rev2.NewWebSource env p = (None, Some e, w) /\
     Rev2.attemptError env p 5 = Some e /\ isExhaustedRetries e = false /\
     count isCall w = 5%nat /\ count isKill w = 1%nat /\
     count isUnload w = 1%nat).
Proof.
  intros Hp Hname Hx. apply String.eqb_neq in Hname. split; intros Hfail.
  - unfold Rev1.NewWebSource, createPulseSink, launchXvfb. rewrite Hp, Hx.
    match goal with
    | |- context [Rev1.chromeLoop ?n ?a env ?p' None ?s ?w] =>
        destruct (Rev1_chromeLoop_exhausted env p' n a None s w)
          as (w' & E & Hc & Hk & Hu);
        [intros a' Ha'; apply Hfail; unfold Rev1.maxRetries in Ha'; lia|]
    end.
    unfold Rev1.maxRetries in *. cbn [Nat.add] in E.
    rewrite Rev1_attemptError_Display in E. rewrite E.
    destruct (Rev1.attemptError env p 3) as [e|] eqn:He;
      [|exfalso; apply (Hfail 3%nat); [lia|assumption]].
    exists e, w'. split; [reflexivity|]. split; [reflexivity|].
    split; [eapply Rev1_attemptError_plain; eassumption|].
    destruct (AwaitStartSignal _); simpl in Hc, Hk, Hu; rewrite Hname in Hu;
      repeat split; assumption.
  - unfold Rev2.NewWebSource, createPulseSink, launchXvfb. rewrite Hp, Hx.
    match goal with
    | |- context [Rev2.chromeLoop ?n ?a env ?p' None ?s ?w] =>
        destruct (Rev2_chromeLoop_exhausted env p' n a None s w)
          as (w' & E & Hc & Hk & Hu);
        [intros a' Ha'; apply Hfail; unfold Rev2.maxRetries in Ha'; lia|]
    end.
    unfold Rev2.maxRetries in *. cbn [Nat.add] in E.
    rewrite Rev2_attemptError_Display in E. rewrite E.
    destruct (Rev2.attemptError env p 5) as [e|] eqn:He;
      [|exfalso; apply (Hfail 5%nat); [lia|assumption]].
    exists e, w'. split; [reflexivity|]. split; [reflexivity|].
    split; [eapply Rev2_attemptError_plain; eassumption|].
    destruct (AwaitStartSignal _); simpl in Hc, Hk, Hu; rewrite Hname in Hu;
      repeat split; assumption.
Qed.

(** The amended C3 on a browser that hangs at every attempt. *)
Lemma C3_witness :
  exists e w,
    Rev2.NewWebSource Fixtures.envAlwaysHangs Fixtures.cfg = (None, Some e, w) /\
    Rev2.attemptError Fixtures.envAlwaysHangs Fixtures.cfg 5 = Some e /\
    isExhaustedRetries e = false /\
    count isCall w = 5%nat /\ count isKill w = 1%nat /\
    count isUnload w = 1%nat.
Proof.
  apply (C3_exhaustion_returns_last_error
           Fixtures.envAlwaysHangs Fixtures.cfg (String.append "23" newline)).
  - reflexivity.
  - vm_compute. discriminate.
  - reflexivity.
  - intros a _. vm_compute. discriminate.
Defined.

(** An attempt that is not over when the wall-clock timeout expires ends
    with the error "timed out". *)
Lemma awaitChrome_timed_out (c : Completion) :
  match c with
  | Done elapsed _ => chromeTimeout <= elapsed
  | Never => True
  end ->
  awaitChrome c = Some (ErrPageLoadFailed "timed out").
Proof.
  destruct c as [t e|]; simpl; [|reflexivity].
  intros H. apply Z.ltb_ge in H. rewrite H. reflexivity.
Qed.

(** C6: in the first revision the wall-clock timeout of an attempt is 45s
    and the timeout of the navigation context is 60s, so the first is the
    smaller one.  A navigation that hangs would be reported by
    [launchChrome] after 60s as "navigation timed out"; the attempt is
    given up after 45s as "timed out".  A navigation that completes
    without error after 50s, within its own timeout, is given up too. *)
Theorem C6_wall_clock_below_navigation_timeout :
  chromeTimeout = 45 * Second /\
  Rev1.navigationTimeout = 60 * Second /\
  (chromeTimeout <? Rev1.navigationTimeout) = true /\
  Rev1.runChrome Fixtures.pageHangs =
    Done (60 * Second) (Some (ErrPageLoadFailed "navigation timed out")) /\
  awaitChrome (Rev1.runChrome Fixtures.pageHangs) =
    Some (ErrPageLoadFailed "timed out") /\
  Rev1.runChrome Fixtures.pageSlow = Done (50 * Second) None /\
  awaitChrome (Rev1.runChrome Fixtures.pageSlow) =
    Some (ErrPageLoadFailed "timed out").
Proof. vm_compute. repeat split. Qed.

(** C7, as the claim states it, fails: without gating, the channel that
    [StartRecording] returns on a new controller is nil, and a receive on
    it is never ready. *)
Lemma C7_counterexample :
  AwaitStartSignal Fixtures.cfg = false /\
  Rev1.NewWebSource Fixtures.envOk Fixtures.cfg =
    (Some Fixtures.ungated, None, Fixtures.firstTry) /\
  StartRecording Fixtures.ungated = ChNil /\
  recv_ready (StartRecording Fixtures.ungated) = false.
Proof. vm_compute. repeat split. Qed.

(** C7, amended: [StartRecording] returns the start channel of the
    controller.  On a controller that [NewWebSource] returns, when the
    configuration did not ask for a start signal this channel is nil: no
    signal exists and a receive on it is never ready, so the caller has to
    test it for nil; when it did, the channel is not nil. *)
Theorem C7_StartRecording_is_nil_without_gating
    (env : Env) (p : PipelineConfig) (s : WebSource) (w : World) :
  Rev1.NewWebSource env p = (Some s, None, w) \/
  Rev2.NewWebSource env p = (Some s, None, w) ->
  StartRecording s = startRecording s /\
  (AwaitStartSignal p = false ->
   StartRecording s = ChNil /\ recv_ready (StartRecording s) = false) /\
  (AwaitStartSignal p = true -> non_nil (StartRecording s) = true).
Proof.
  intros H.
  assert (chan_le (if AwaitStartSignal p then ChOpen else ChNil)
            (startRecording s) = true) as E.
  { destruct H as [H|H].
    - eapply Rev1_NewWebSource_start; eassumption.
    - eapply Rev2_NewWebSource_start; eassumption. }
  unfold StartRecording.
  split; [reflexivity|]. split; intros Hg; rewrite Hg in E.
  - apply chan_le_nil in E. rewrite E. split; reflexivity.
  - apply chan_le_open. exact E.
Qed.

(** The amended C7 on a construction that succeeds at once. *)
Lemma C7_witness :
  StartRecording Fixtures.ungated = ChNil /\
  recv_ready (StartRecording Fixtures.ungated) = false.
Proof.
  apply (C7_StartRecording_is_nil_without_gating
           Fixtures.envOk Fixtures.cfg Fixtures.ungated Fixtures.firstTry).
  - left. reflexivity.
  - reflexivity.
Defined.

(** ** Witnesses for the signals *)

(** C5 on a controller whose start signal has occurred. *)
Lemma C5_witness :
  (exists s',
     dispatch Fixtures.demo_Unmarshal Fixtures.demo_Sprint Fixtures.started
       [Fixtures.startEvent; Fixtures.endEvent] = Some s' /\
     recv_ready (startRecording s') = true) /\
  listener Fixtures.demo_Unmarshal Fixtures.demo_Sprint Fixtures.started
    Fixtures.startEvent = Some Fixtures.started.
Proof.
  pose proof (C5_signals_flip_at_most_once
                Fixtures.demo_Unmarshal Fixtures.demo_Sprint Fixtures.started)
    as (Hseq & Hstart & _).
  split.
  - destruct (Hseq [Fixtures.startEvent; Fixtures.endEvent])
      as (s' & E & _ & _ & Hs & _).
    exists s'. split; [exact E|]. apply Hs. reflexivity.
  - apply Hstart; reflexivity.
Defined.

(** C9 on a controller without a start channel. *)
Lemma C9_witness :
  (exists s',
     listener Fixtures.demo_Unmarshal Fixtures.demo_Sprint Fixtures.ungated
       Fixtures.startEvent = Some s' /\ startRecording s' = ChNil) /\
  listener Fixtures.demo_Unmarshal Fixtures.demo_Sprint Fixtures.ungated
    Fixtures.startEvent = Some Fixtures.ungated.
Proof.
  destruct (C9_start_sentinel_ignored_without_gating
              Fixtures.demo_Unmarshal Fixtures.demo_Sprint
              Fixtures.ungated Fixtures.startEvent eq_refl)
    as (Hnil & Hsame & _).
  split; [exact Hnil|]. apply Hsame. reflexivity.
Defined.

(** ** The uploader *)

Import Uploader.

(** The result of [remoteUploader.Upload] and what it does do not depend
    on the remote store that the uploader embeds: [upload] is never
    called. *)
Lemma remoteUploader_Upload_ignores_store
    (path_Join : string -> string -> string) (path_Dir : string -> string)
    (F : Faults) (u u' : remoteUploader)
    (localFilepath storageFilepath outputType : string)
    (deleteAfterUpload : bool) (fileType : string) (w : UWorld) :
  remoteUploader_Upload path_Join path_Dir F u localFilepath storageFilepath
    outputType deleteAfterUpload fileType w =
  remoteUploader_Upload path_Join path_Dir F u' localFilepath storageFilepath
    outputType deleteAfterUpload fileType w.
Proof. reflexivity. Qed.

(** C8: an uploader that [New] builds for an S3 configuration.  When the
    local file cannot be opened, [Upload] returns the error after one
    attempt to copy, without a retry or a delay; when nothing fails, the
    location it returns is the copy under [/out/recordings].  In both runs
    the remote store is never called.  The bounded retries with backoff
    and the delivery to the configured store that the claim describes are
    not there, although [maxRetries], [minDelay] and [maxDelay] are
    declared and [New] builds the store. *)
Theorem C8_Upload_copies_locally_without_retry :
  New Fixtures.newFakeStore Fixtures.newFakeStore Fixtures.newFakeStore
    Fixtures.newFakeStore (S3Upload "bucket") EmptyString tt =
    inr (Remote Fixtures.s3Uploader) /\
  (let '(r, w) :=
     Upload Fixtures.join Fixtures.dirOf Fixtures.openFails
       (Remote Fixtures.s3Uploader) "/tmp/a.mp4" "a.mp4" "mp4" false
       "video/mp4" Fixtures.disk in
   r = (EmptyString, 0, Some Fixtures.busy) /\
   ops w = [OpMkdirAll "/out/recordings";
            OpCopyFile "/tmp/a.mp4" "/out/recordings/a.mp4";
            OpLog "failed to copy file to output location"] /\
   List.filter isRetryOp (ops w) = []) /\
  (let '(r, w) :=
     Upload Fixtures.join Fixtures.dirOf Fixtures.noFaults
       (Remote Fixtures.s3Uploader) "/tmp/a.mp4" "a.mp4" "mp4" false
       "video/mp4" Fixtures.disk in
   r = ("/out/recordings/a.mp4", 3, None) /\
   ops w = [OpMkdirAll "/out/recordings";
            OpCopyFile "/tmp/a.mp4" "/out/recordings/a.mp4";
            OpStat "/out/recordings/a.mp4"] /\
   List.filter isRetryOp (ops w) = []).
Proof. vm_compute. repeat split. Qed.

(** C10: with [deleteAfterUpload] set, when the directory is made, the
    file copied and measured, and the removal of the local file fails,
    [Upload] still returns the output path, the size of the output file
    and no error; the failure is logged and nothing else happens: the
    file system is as the copy left it. *)
Theorem C10_delete_failure_is_swallowed
    (path_Join : string -> string -> string) (path_Dir : string -> string)
    (F : Faults) (u : remoteUploader)
    (localFilepath storageFilepath outputType fileType : string)
    (w : UWorld) (size : Z) (err : goerror) :
  let out := path_Join outDir storageFilepath in
  let w0 := (os_MkdirAll F (path_Dir out) w).2 in
  let w1 := (copyFile F localFilepath out w0).2 in
  let w2 := (os_Stat F out w1).2 in
  let w3 := (os_Remove F localFilepath w2).2 in
  (os_MkdirAll F (path_Dir out) w).1 = None ->
  (copyFile F localFilepath out w0).1 = None ->
  (os_Stat F out w1).1 = inr size ->
  (os_Remove F localFilepath w2).1 = Some err ->
  remoteUploader_Upload path_Join path_Dir F u localFilepath storageFilepath
    outputType true fileType w =
    ((out, size, None), record (OpLog "failed to delete original file") w3) /\
  files (record (OpLog "failed to delete original file") w3) = files w1 /\
  exists content : list byte,
    files w1 !! out = Some content /\ size = Z.of_nat (length content).
Proof.
  intros out w0 w1 w2 w3 Hmk Hcp Hst Hrm.
  split; [|split].
  - unfold remoteUploader_Upload. fold out.
    destruct (os_MkdirAll F (path_Dir out) w) as [r0 w0'] eqn:E0.
    simpl in Hmk. subst r0. subst w0. simpl in *.
    destruct (copyFile F localFilepath out w0') as [r1 w1'] eqn:E1.
    simpl in Hcp. subst r1. subst w1. simpl in *.
    destruct (os_Stat F out w1') as [r2 w2'] eqn:E2.
    simpl in Hst. subst r2. subst w2. simpl in *.
    destruct (os_Remove F localFilepath w2') as [r3 w3'] eqn:E3.
    simpl in Hrm. subst r3. subst w3. simpl. reflexivity.
  - subst w3 w2. unfold os_Remove, os_Stat in *. simpl.
    destruct (remove_err F localFilepath); simpl;
      destruct (stat_err F out); simpl;
      destruct (files w1 !! out); simpl; try reflexivity;
      destruct (files w1 !! localFilepath) eqn:El; simpl; try reflexivity;
      exfalso; revert Hrm; simpl; rewrite ?El; simpl; discriminate.
  - subst w2. unfold os_Stat in Hst.
    destruct (stat_err F out); [discriminate|].
    destruct (files w1 !! out) as [content|]; [|discriminate].
    simpl in Hst. exists content. split; [reflexivity|congruence].
Qed.

(** C10 on a disk where the local file cannot be removed. *)
Lemma C10_witness :
  remoteUploader_Upload Fixtures.join Fixtures.dirOf Fixtures.removeFails
    Fixtures.s3Uploader "/tmp/a.mp4" "a.mp4" "mp4" true "video/mp4"
    Fixtures.disk =
  (("/out/recordings/a.mp4", 3, None),
   {| files := <["/out/recordings/a.mp4" := [x01; x02; x03]%byte]>
                 (files Fixtures.disk);
      ops := [OpMkdirAll "/out/recordings";
              OpCopyFile "/tmp/a.mp4" "/out/recordings/a.mp4";
              OpStat "/out/recordings/a.mp4"; OpRemove "/tmp/a.mp4";
              OpLog "failed to delete original file"] |}).
Proof.
  pose proof (C10_delete_failure_is_swallowed
                Fixtures.join Fixtures.dirOf Fixtures.removeFails
                Fixtures.s3Uploader "/tmp/a.mp4" "a.mp4" "mp4" "video/mp4"
                Fixtures.disk 3 Fixtures.busy
                eq_refl eq_refl eq_refl eq_refl) as [H _].
  rewrite H. vm_compute. reflexivity.
Defined.

(** * Further properties of web.go *)

Import Observe.

(** ** What [NewWebSource] returns *)

Lemma awaitChrome_parse_error (g : goerror) :
  awaitChrome (Done 0 (Some (Lib g))) = Some (Lib g).
Proof. reflexivity. Qed.

Lemma kept_after (s s1 s' : WebSource) :
  pulseSink s1 = pulseSink s -> xvfb s1 = xvfb s -> info s1 = info s ->
  chan_le (startRecording s) (startRecording s1) = true ->
  chan_le (endRecording s) (endRecording s1) = true ->
  kept s1 s' -> kept s s'.
Proof.
  intros Hp Hx Hi Hs He (Kc & Kp & Kx & Ki & Ks & Ke).
  unfold kept. repeat split; try congruence;
    eapply chan_le_trans; eassumption.
Qed.

Ltac kept_step H :=
  eapply kept_after; [..|exact H]; ws_simpl;
  first [reflexivity | assumption | apply chan_le_refl].

Lemma Rev1_chromeLoop_result (env : Env) (p : PipelineConfig) (todo : nat) :
  forall (attempt : nat) (err : option error) (s : WebSource) (w : World),
    (todo = 0%nat -> err <> None) ->
    match Rev1.chromeLoop todo attempt env p err s w with
    | (Some s', None, _) => kept s s'
    | (None, Some _, _) => True
    | _ => False
    end.
Proof.
  induction todo as [|todo IH]; intros attempt err s w Herr; simpl.
  - destruct (Close s w). destruct err; [exact I|]. apply Herr; reflexivity.
  - launch1.
    destruct (buildUrl p (chrome env attempt)) eqn:Hurl.
    + unfold Rev1.outcome. rewrite Hurl, awaitChrome_parse_error.
      apply IH. discriminate.
    + destruct (awaitChrome _) as [e|].
      * match goal with
        | |- context [Rev1.chromeLoop todo ?a env p ?e' ?s1 ?w1] =>
            pose proof (IH a e' s1 w1 ltac:(discriminate)) as H;
            destruct (Rev1.chromeLoop todo a env p e' s1 w1) as [[[s'|] [e''|]] w']
        end; try assumption.
        kept_step H.
      * unfold kept. ws_simpl. repeat split; try assumption. discriminate.
Qed.

Lemma Rev2_chromeLoop_result (env : Env) (p : PipelineConfig) (todo : nat) :
  forall (attempt : nat) (err : option error) (s : WebSource) (w : World),
    (todo = 0%nat -> err <> None) ->
    match Rev2.chromeLoop todo attempt env p err s w with
    | (Some s', None, _) => kept s s'
    | (None, Some _, _) => True
    | _ => False
    end.
Proof.
  induction todo as [|todo IH]; intros attempt err s w Herr; simpl.
  - destruct (Close s w). destruct err; [exact I|]. apply Herr; reflexivity.
  - launch2.
    destruct (buildUrl p (chrome env attempt)) eqn:Hurl.
    + unfold Rev2.outcome. rewrite Hurl, awaitChrome_parse_error.
      destruct (Rev2.cancelChrome s (emit ChromeCalled w)) as [s1 w1] eqn:Ec.
      match goal with
      | |- context [Rev2.chromeLoop todo ?a env p ?e' s1 ?w2] =>
          pose proof (IH a e' s1 w2 ltac:(discriminate)) as H;
          destruct (Rev2.chromeLoop todo a env p e' s1 w2) as [[[s'|] [e''|]] w']
      end; try assumption.
      unfold Rev2.cancelChrome in Ec.
      destruct (closeChrome s); injection Ec as <- _; [|exact H].
      kept_step H.
    + destruct (awaitChrome _) as [e|].
      * unfold Rev2.cancelChrome. ws_simpl.
        match goal with
        | |- context [Rev2.chromeLoop todo ?a env p ?e' ?s1 ?w1] =>
            pose proof (IH a e' s1 w1 ltac:(discriminate)) as H;
            destruct (Rev2.chromeLoop todo a env p e' s1 w1) as [[[s'|] [e''|]] w']
        end; try assumption.
        kept_step H.
      * unfold kept. ws_simpl. repeat split; try assumption. discriminate.
Qed.

(** In both revisions [NewWebSource] returns either a controller and no
    error or no controller and an error.  A controller that it returns
    holds a display and a browser cancel function, carries the sink name
    that pactl printed (without the trailing newlines) and the egress info
    of the configuration, and its end channel is not nil: it is the
    channel that was made at the start, which the listener may have closed
    already if the page logged the end sentinel while it loaded. *)
Theorem NewWebSource_controller_or_error (env : Env) (p : PipelineConfig) :
  let complete (s : WebSource) : Prop :=
    closeChrome s <> None /\ xvfb s <> None /\
    info s = Info p /\ non_nil (endRecording s) = true /\
    exists out, pactl_load env = inr out /\ pulseSink s = TrimRight out newline in
  match Rev1.NewWebSource env p with
  | (Some s, None, _) => complete s
  | (None, Some _, _) => True
  | _ => False
  end /\
  match Rev2.NewWebSource env p with
  | (Some s, None, _) => complete s
  | (None, Some _, _) => True
  | _ => False
  end.
Proof.
  intros complete. subst complete. split.
  - unfold Rev1.NewWebSource, createPulseSink, launchXvfb.
    destruct (pactl_load env) as [err|out]; [destruct (Close _ _); exact I|].
    destruct (xvfb_Start env); [destruct (Close _ _); exact I|].
    match goal with
    | |- context [Rev1.chromeLoop ?n ?a env ?p' None ?s ?w] =>
        pose proof (Rev1_chromeLoop_result env p' n a None s w
                      ltac:(unfold Rev1.maxRetries; discriminate)) as H;
        destruct (Rev1.chromeLoop n a env p' None s w) as [[[s'|] [e|]] w']
    end; try assumption.
    destruct H as (Hc & Hp & Hx & Hi & _ & He).
    repeat split; try assumption.
    + rewrite Hx. discriminate.
    + rewrite Hi. destruct (AwaitStartSignal _); reflexivity.
    + apply chan_le_open. revert He.
      destruct (AwaitStartSignal _); intros He; exact He.
    + exists out. split; [reflexivity|]. rewrite Hp.
      destruct (AwaitStartSignal _); reflexivity.
  - unfold Rev2.NewWebSource, createPulseSink, launchXvfb.
    destruct (pactl_load env) as [err|out]; [destruct (Close _ _); exact I|].
    destruct (xvfb_Start env); [destruct (Close _ _); exact I|].
    match goal with
    | |- context [Rev2.chromeLoop ?n ?a env ?p' None ?s ?w] =>
        pose proof (Rev2_chromeLoop_result env p' n a None s w
                      ltac:(unfold Rev2.maxRetries; discriminate)) as H;
        destruct (Rev2.chromeLoop n a env p' None s w) as [[[s'|] [e|]] w']
    end; try assumption.
    destruct H as (Hc & Hp & Hx & Hi & _ & He).
    repeat split; try assumption.
    + rewrite Hx. discriminate.
    + rewrite Hi. destruct (AwaitStartSignal _); reflexivity.
    + apply chan_le_open. revert He.
      destruct (AwaitStartSignal _); intros He; exact He.
    + exists out. split; [reflexivity|]. rewrite Hp.
      destruct (AwaitStartSignal _); reflexivity.
Qed.

(** ** How often the browser is launched and how long the loop sleeps *)

Lemma slept_emit (e : Event) (w : World) :
  slept (emit e w) = slept w + match e with Slept d => d | _ => 0 end.
Proof.
  unfold slept, emit. induction w as [|x w IH]; simpl.
  - destruct e; lia.
  - rewrite IH. destruct x; lia.
Qed.

Lemma Close_never_sleeps (s : WebSource) (w : World) :
  count isSleep (Close s w).2 = count isSleep w /\
  slept (Close s w).2 = slept w.
Proof.
  unfold Close.
  destruct s as [ps [c|] [h|] sr er i]; simpl;
    destruct (String.eqb ps EmptyString); simpl;
    rewrite ?count_emit, ?slept_emit; simpl;
    rewrite ?count_emit, ?slept_emit; simpl;
    rewrite ?count_emit, ?slept_emit; simpl; split; lia.
Qed.

Ltac tally := repeat first [rewrite count_emit | rewrite slept_emit]; simpl.

Lemma Rev1_chromeLoop_tally (env : Env) (p : PipelineConfig) (todo : nat) :
  forall (attempt : nat) (err : option error) (s : WebSource) (w : World),
    (attempt + todo = S Rev1.maxRetries)%nat ->
    exists k : nat,
      (k <= todo)%nat /\ (1 <= todo -> 1 <= k)%nat /\
      count isCall (Rev1.chromeLoop todo attempt env p err s w).2 =
        (count isCall w + k)%nat /\
      count isSleep (Rev1.chromeLoop todo attempt env p err s w).2 =
        (count isSleep w + (k - 1))%nat /\
      slept (Rev1.chromeLoop todo attempt env p err s w).2 =
        slept w + Rev1.retryDelay * Z.of_nat (k - 1).
Proof.
  induction todo as [|todo IH]; intros attempt err s w Hsum; simpl.
  - exists 0%nat. destruct (Close s w) as [s' w'] eqn:E. simpl.
    pose proof (Close_never_sleeps s w) as [Hs Ht].
    pose proof (Close_counts s w) as (_ & _ & Hc).
    rewrite E in Hs, Ht, Hc. simpl in *. repeat split; lia.
  - launch1.
    destruct (buildUrl p (chrome env attempt));
      (destruct (awaitChrome _) as [e|];
       [|exists 1%nat; simpl; tally; repeat split; lia]);
      destruct (Nat.ltb_spec attempt Rev1.maxRetries);
      match goal with
      | |- context [Rev1.chromeLoop todo (S attempt) env p (Some e) ?s1 ?w1] =>
          destruct (IH (S attempt) (Some e) s1 w1 ltac:(lia))
            as (k & Hk & Hk1 & Hc & Hs & Ht)
      end;
      exists (S k); rewrite Hc, Hs, Ht; tally;
      repeat split; try lia; unfold Rev1.maxRetries in *;
      rewrite ?Nat.sub_0_r;
      (assert (k = 0%nat \/ (1 <= k)%nat) as [->|Hpos] by lia;
       [simpl; lia|
        assert (Z.of_nat (k - 1) = Z.of_nat k - 1) by lia; nia]).
Qed.

Lemma Rev2_chromeLoop_tally (env : Env) (p : PipelineConfig) (todo : nat) :
  forall (attempt : nat) (err : option error) (s : WebSource) (w : World),
    (attempt + todo = S Rev2.maxRetries)%nat ->
    exists k : nat,
      (k <= todo)%nat /\ (1 <= todo -> 1 <= k)%nat /\
      count isCall (Rev2.chromeLoop todo attempt env p err s w).2 =
        (count isCall w + k)%nat /\
      count isSleep (Rev2.chromeLoop todo attempt env p err s w).2 =
        (count isSleep w + (k - 1))%nat /\
      slept (Rev2.chromeLoop todo attempt env p err s w).2 =
        slept w + Rev2.retryDelay * Z.of_nat (k - 1).
Proof.
  induction todo as [|todo IH]; intros attempt err s w Hsum; simpl.
  - exists 0%nat. destruct (Close s w) as [s' w'] eqn:E. simpl.
    pose proof (Close_never_sleeps s w) as [Hs Ht].
    pose proof (Close_counts s w) as (_ & _ & Hc).
    rewrite E in Hs, Ht, Hc. simpl in *. repeat split; lia.
  - launch2. unfold Rev2.cancelChrome.
    destruct (buildUrl p (chrome env attempt));
      (destruct (awaitChrome _) as [e|];
       [|exists 1%nat; simpl; tally; repeat split; lia]);
      ws_simpl; try destruct (closeChrome s);
      destruct (Nat.ltb_spec attempt Rev2.maxRetries);
      match goal with
      | |- context [Rev2.chromeLoop todo (S attempt) env p (Some e) ?s1 ?w1] =>
          destruct (IH (S attempt) (Some e) s1 w1 ltac:(lia))
            as (k & Hk & Hk1 & Hc & Hs & Ht)
      end;
      exists (S k); rewrite Hc, Hs, Ht; tally;
      repeat split; try lia; unfold Rev2.maxRetries in *;
      rewrite ?Nat.sub_0_r;
      (assert (k = 0%nat \/ (1 <= k)%nat) as [->|Hpos] by lia;
       [simpl; lia|
        assert (Z.of_nat (k - 1) = Z.of_nat k - 1) by lia; nia]).
Qed.

(** Whatever the sink, the display and the browser do, [NewWebSource]
    calls [launchChrome] at most [maxRetries] times (3 in the first
    revision, 5 in the second), and it sleeps one time fewer than it
    calls [launchChrome], each time for [retryDelay] (5s, 10s): a
    construction with a single attempt never sleeps, and no sleep follows
    the last attempt. *)
Theorem NewWebSource_bounded_retries (env : Env) (p : PipelineConfig) :
  (let w := (Rev1.NewWebSource env p).2 in
   (count isCall w <= 3)%nat /\
   count isSleep w = (count isCall w - 1)%nat /\
   slept w = 5 * Second * Z.of_nat (count isSleep w)) /\
  (let w := (Rev2.NewWebSource env p).2 in
   (count isCall w <= 5)%nat /\
   count isSleep w = (count isCall w - 1)%nat /\
   slept w = 10 * Second * Z.of_nat (count isSleep w)).
Proof.
  split.
  - unfold Rev1.NewWebSource, createPulseSink, launchXvfb.
    destruct (pactl_load env) as [err|out];
      [destruct (AwaitStartSignal _); vm_compute; repeat split; lia|].
    destruct (xvfb_Start env).
    + unfold Close. destruct (AwaitStartSignal _); simpl;
        destruct (String.eqb _ _); simpl; tally; unfold count, slept; simpl;
        repeat split; lia.
    + match goal with
      | |- context [Rev1.chromeLoop ?n ?a env ?p' None ?s ?w] =>
          destruct (Rev1_chromeLoop_tally env p' n a None s w eq_refl)
            as (k & Hk & _ & Hc & Hs & Ht)
      end.
      cbv zeta. rewrite Hc, Hs, Ht. tally. unfold count, slept. simpl.
      unfold Rev1.maxRetries, Rev1.retryDelay, Second, Millisecond in *.
      repeat split; lia.
  - unfold Rev2.NewWebSource, createPulseSink, launchXvfb.
    destruct (pactl_load env) as [err|out];
      [destruct (AwaitStartSignal _); vm_compute; repeat split; lia|].
    destruct (xvfb_Start env).
    + unfold Close. destruct (AwaitStartSignal _); simpl;
        destruct (String.eqb _ _); simpl; tally; unfold count, slept; simpl;
        repeat split; lia.
    + match goal with
      | |- context [Rev2.chromeLoop ?n ?a env ?p' None ?s ?w] =>
          destruct (Rev2_chromeLoop_tally env p' n a None s w eq_refl)
            as (k & Hk & _ & Hc & Hs & Ht)
      end.
      cbv zeta. rewrite Hc, Hs, Ht. tally. unfold count, slept. simpl.
      unfold Rev2.maxRetries, Rev2.retryDelay, Second, Millisecond in *.
      repeat split; lia.
Qed.

(** ** When [NewWebSource] succeeds *)

Lemma Rev1_chromeLoop_success_iff (env : Env) (p : PipelineConfig) (todo : nat) :
  forall (attempt : nat) (err : option error) (s : WebSource) (w : World),
    is_Some (Rev1.chromeLoop todo attempt env p err s w).1.1 <->
    exists a, (attempt <= a < attempt + todo)%nat /\
              Rev1.attemptError env p a = None.
Proof.
  induction todo as [|todo IH]; intros attempt err s w; simpl.
  - destruct (Close s w). simpl. split.
    + intros [x Hx]. discriminate.
    + intros (a & Ha & _). lia.
  - launch1.
    assert (Rev1.attemptError env p attempt =
            awaitChrome (Rev1.outcome p (chrome env attempt))) as Hdef
      by reflexivity.
    destruct (buildUrl p (chrome env attempt));
      destruct (awaitChrome (Rev1.outcome p (chrome env attempt))) as [e|];
      try (simpl; split; [intros _; exists attempt; split; [lia|assumption]
                         |intros _; eexists; reflexivity]);
      rewrite IH; split; intros (a & Ha & Hok);
      try (exists a; split; [lia|assumption]);
      (assert (a <> attempt) by (intros ->; congruence));
      exists a; (split; [lia|assumption]).
Qed.

Lemma Rev2_chromeLoop_success_iff (env : Env) (p : PipelineConfig) (todo : nat) :
  forall (attempt : nat) (err : option error) (s : WebSource) (w : World),
    is_Some (Rev2.chromeLoop todo attempt env p err s w).1.1 <->
    exists a, (attempt <= a < attempt + todo)%nat /\
              Rev2.attemptError env p a = None.
Proof.
  induction todo as [|todo IH]; intros attempt err s w; simpl.
  - destruct (Close s w). simpl. split.
    + intros [x Hx]. discriminate.
    + intros (a & Ha & _). lia.
  - launch2.
    assert (Rev2.attemptError env p attempt =
            awaitChrome (Rev2.outcome p (chrome env attempt))) as Hdef
      by reflexivity.
    destruct (buildUrl p (chrome env attempt));
      destruct (awaitChrome (Rev2.outcome p (chrome env attempt))) as [e|];
      try (simpl; split; [intros _; exists attempt; split; [lia|assumption]
                         |intros _; eexists; reflexivity]);
      (destruct (Rev2.cancelChrome _ _) as [s1 w1]);
      rewrite IH; split; intros (a & Ha & Hok);
      try (exists a; split; [lia|assumption]);
      (assert (a <> attempt) by (intros ->; congruence));
      exists a; (split; [lia|assumption]).
Qed.

(** Once the sink and the display are up, [NewWebSource] returns a
    controller exactly when one of its attempts, the first to the third in
    the first revision and the first to the fifth in the second, ends
    without error within the wall-clock timeout. *)
Theorem NewWebSource_succeeds_iff
    (env : Env) (p : PipelineConfig) (out : string) :
  pactl_load env = inr out ->
  xvfb_Start env = None ->
  (is_Some (Rev1.NewWebSource env p).1.1 <->
   exists a, (1 <= a <= 3)%nat /\ Rev1.attemptError env p a = None) /\
  (is_Some (Rev2.NewWebSource env p).1.1 <->
   exists a, (1 <= a <= 5)%nat /\ Rev2.attemptError env p a = None).
Proof.
  intros Hp Hx. split.
  - unfold Rev1.NewWebSource, createPulseSink, launchXvfb. rewrite Hp, Hx.
    rewrite Rev1_chromeLoop_success_iff. unfold Rev1.maxRetries.
    split; intros (a & Ha & Hok); exists a; (split; [lia|exact Hok]).
  - unfold Rev2.NewWebSource, createPulseSink, launchXvfb. rewrite Hp, Hx.
    rewrite Rev2_chromeLoop_success_iff. unfold Rev2.maxRetries.
    split; intros (a & Ha & Hok); exists a; (split; [lia|exact Hok]).
Qed.

(** The browser fails twice and then loads the page: the first revision
    returns a controller. *)
Lemma NewWebSource_succeeds_iff_witness :
  is_Some (Rev1.NewWebSource (Fixtures.envSucceedsAt 3) Fixtures.cfg).1.1.
Proof.
  apply (NewWebSource_succeeds_iff (Fixtures.envSucceedsAt 3) Fixtures.cfg
           (String.append "23" newline) eq_refl eq_refl).
  exists 3%nat. split; [lia|reflexivity].
Defined.

Lemma Rev1_chromeLoop_succeeds (env : Env) (p : PipelineConfig) (k : nat) :
  forall (todo attempt : nat) (err : option error) (s : WebSource) (w : World),
    (k < todo)%nat ->
    (forall a, (attempt <= a < attempt + k)%nat ->
               Rev1.attemptError env p a <> None) ->
    Rev1.attemptError env p (attempt + k) = None ->
    exists s' w',
      Rev1.chromeLoop todo attempt env p err s w = (Some s', None, w') /\
      count isCall w' = (count isCall w + S k)%nat.
Proof.
  induction k as [|k IH]; intros todo attempt err s w Hk Hfail Hok;
    (destruct todo as [|todo]; [lia|]); simpl; launch1.
  - rewrite Nat.add_0_r in Hok. unfold Rev1.attemptError in Hok.
    destruct (buildUrl p (chrome env attempt)); rewrite Hok;
      eexists _, _; (split; [reflexivity|]); world_simpl; simpl; lia.
  - pose proof (Hfail attempt ltac:(lia)) as Hnow.
    unfold Rev1.attemptError in Hnow.
    destruct (awaitChrome (Rev1.outcome p (chrome env attempt))) as [e|] eqn:Ha;
      [clear Hnow|contradiction].
    assert (forall a, (S attempt <= a < S attempt + k)%nat ->
                      Rev1.attemptError env p a <> None) as Hrest
      by (intros a Hr; apply Hfail; lia).
    assert (Rev1.attemptError env p (S attempt + k) = None) as Hok'
      by (rewrite <- Hok; f_equal; lia).
    destruct (buildUrl p (chrome env attempt)); rewrite Ha; pause_cases;
      match goal with
      | |- context [Rev1.chromeLoop todo (S attempt) env p (Some e) ?s1 ?w1] =>
          destruct (IH todo (S attempt) (Some e) s1 w1 ltac:(lia) Hrest Hok')
            as (s' & w' & E & Hc)
      end;
      exists s', w'; rewrite E; (split; [reflexivity|]);
      revert Hc; world_simpl; simpl; lia.
Qed.

(** When the sink and the display are up, the first [k] attempts fail
    and the next one succeeds within the bound, [NewWebSource] returns a
    controller after exactly [k + 1] calls of [launchChrome] and [k]
    sleeps: it stops at the first success. *)
Theorem NewWebSource_stops_at_first_success
    (env : Env) (p : PipelineConfig) (out : string) (k : nat) :
  pactl_load env = inr out ->
  xvfb_Start env = None ->
  ((k < 3)%nat ->
   (forall a, (1 <= a <= k)%nat -> Rev1.attemptError env p a <> None) ->
   Rev1.attemptError env p (S k) = None ->
   exists s w,
     Rev1.NewWebSource env p = (Some s, None, w) /\
     count isCall w = S k /\ count isSleep w = k) /\
  ((k < 5)%nat ->
   (forall a, (1 <= a <= k)%nat -> Rev2.attemptError env p a <> None) ->
   Rev2.attemptError env p (S k) = None ->
   exists s w,
     Rev2.NewWebSource env p = (Some s, None, w) /\
     count isCall w = S k /\ count isSleep w = k).
Proof.
  intros Hp Hx. split; intros Hk Hfail Hok.
  - unfold Rev1.NewWebSource, createPulseSink, launchXvfb. rewrite Hp, Hx.
    match goal with
    | |- context [Rev1.chromeLoop ?n ?a env ?p' None ?s ?w] =>
        destruct (Rev1_chromeLoop_succeeds env p' k n a None s w Hk)
          as (s' & w' & E & Hc);
        [intros a' Ha'; apply Hfail; lia|exact Hok|];
        destruct (Rev1_chromeLoop_tally env p' n a None s w eq_refl)
          as (k' & _ & _ & Hc' & Hs & _)
    end.
    rewrite E in *. simpl in Hc', Hs. exists s', w'.
    split; [reflexivity|]. revert Hc Hc' Hs. tally. unfold count. simpl. lia.
  - unfold Rev2.NewWebSource, createPulseSink, launchXvfb. rewrite Hp, Hx.
    match goal with
    | |- context [Rev2.chromeLoop ?n ?a env ?p' None ?s ?w] =>
        destruct (Rev2_chromeLoop_succeeds env p' k n a None s w Hk)
          as (s' & w' & E & Hc);
        [intros a' Ha'; apply Hfail; lia|exact Hok|];
        destruct (Rev2_chromeLoop_tally env p' n a None s w eq_refl)
          as (k' & _ & _ & Hc' & Hs & _)
    end.
    rewrite E in *. simpl in Hc', Hs. exists s', w'.
    split; [reflexivity|]. revert Hc Hc' Hs. tally. unfold count. simpl. lia.
Qed.

(** The browser fails four times and loads the page at the fifth
    attempt of the second revision. *)
Lemma NewWebSource_stops_at_first_success_witness :
  exists s w,
    Rev2.NewWebSource (Fixtures.envSucceedsAt 5) Fixtures.cfg = (Some s, None, w) /\
    count isCall w = 5%nat /\ count isSleep w = 4%nat.
Proof.
  apply (NewWebSource_stops_at_first_success (Fixtures.envSucceedsAt 5)
           Fixtures.cfg (String.append "23" newline) 4 eq_refl eq_refl).
  - lia.
  - intros a Ha.
    assert (a = 1 \/ a = 2 \/ a = 3 \/ a = 4)%nat as [->|[->|[->| ->]]] by lia;
      vm_compute; discriminate.
  - reflexivity.
Defined.

(** ** When the sink or the display does not start *)

(** When [pactl load-module] fails, [NewWebSource] returns the error
    [ErrProcessFailed("pulse", cause)] and has started and stopped
    nothing: no display, no browser, no unload. *)
Theorem NewWebSource_pulse_failure
    (env : Env) (p : PipelineConfig) (cause : goerror) :
  pactl_load env = inl cause ->
  Rev1.NewWebSource env p = (None, Some (ErrProcessFailed "pulse" cause), []) /\
  Rev2.NewWebSource env p = (None, Some (ErrProcessFailed "pulse" cause), []).
Proof.
  intros Hp. unfold Rev1.NewWebSource, Rev2.NewWebSource, createPulseSink.
  rewrite Hp. destruct (AwaitStartSignal _); split; reflexivity.
Qed.

Lemma NewWebSource_pulse_failure_witness :
  Rev2.NewWebSource Fixtures2.envNoPulse Fixtures.cfg =
    (None, Some (ErrProcessFailed "pulse" Fixtures2.noPactl), []).
Proof.
  apply (NewWebSource_pulse_failure Fixtures2.envNoPulse Fixtures.cfg
           Fixtures2.noPactl eq_refl).
Defined.

(** When the sink is loaded and Xvfb does not start, [NewWebSource]
    returns [ErrProcessFailed("xvfb", cause)], never calls
    [launchChrome], and unloads the sink once, unless pactl printed no
    name, in which case the sink stays loaded. *)
Theorem NewWebSource_display_failure
    (env : Env) (p : PipelineConfig) (out : string) (cause : goerror) :
  pactl_load env = inr out ->
  xvfb_Start env = Some cause ->
  let name := TrimRight out newline in
  let w := if String.eqb name EmptyString then [SinkLoaded name]
           else [SinkLoaded name; SinkUnload name] in
  Rev1.NewWebSource env p = (None, Some (ErrProcessFailed "xvfb" cause), w) /\
  Rev2.NewWebSource env p = (None, Some (ErrProcessFailed "xvfb" cause), w) /\
  count isCall w = 0%nat /\
  (name <> EmptyString -> live w = []).
Proof.
  intros Hp Hx name w.
  unfold Rev1.NewWebSource, Rev2.NewWebSource, createPulseSink, launchXvfb, Close.
  rewrite Hp, Hx. subst w. fold name.
  destruct (AwaitStartSignal _); simpl; fold name;
    destruct (String.eqb name EmptyString) eqn:E; simpl;
    (repeat split; try reflexivity);
    try (intros Hn; apply String.eqb_neq in Hn; congruence);
    intros _; unfold live; simpl; release_simpl; reflexivity.
Qed.

Lemma NewWebSource_display_failure_witness :
  Rev1.NewWebSource Fixtures2.envNoDisplay Fixtures.cfg =
    (None, Some (ErrProcessFailed "xvfb" Fixtures2.noXvfb),
     [SinkLoaded "23"; SinkUnload "23"]).
Proof.
  apply (NewWebSource_display_failure Fixtures2.envNoDisplay Fixtures.cfg
           (String.append "23" newline) Fixtures2.noXvfb eq_refl eq_refl).
Defined.

(** ** The display of a new controller *)

(** [rand.Intn(2147483637)] answers in [0, 2147483637), so the display
    number of a controller that [NewWebSource] returns lies between 10 and
    2147483646, the largest 32-bit signed integer being 2147483647, and the
    screen has the width, height and depth of the configuration. *)
Theorem NewWebSource_display_range
    (env : Env) (p : PipelineConfig) (s : WebSource) (w : World) :
  0 <= rand_Intn env < 2147483637 ->
  Rev1.NewWebSource env p = (Some s, None, w) \/
  Rev2.NewWebSource env p = (Some s, None, w) ->
  exists c,
    xvfb s = Some c /\
    cmdDisplay c = 10 + rand_Intn env /\
    10 <= cmdDisplay c < 2 ^ 31 - 1 /\
    cmdDims c = (Width p, Height p, Depth p).
Proof.
  intros Hr H.
  assert (xvfb s = Some {| cmdDisplay := 10 + rand_Intn env;
                           cmdDims := (Width p, Height p, Depth p) |}) as Hx.
  { destruct H as [H|H].
    - unfold Rev1.NewWebSource, createPulseSink, launchXvfb in H.
      destruct (pactl_load env); [destruct (Close _ _); discriminate|].
      destruct (xvfb_Start env); [destruct (Close _ _); discriminate|].
      match type of H with
      | Rev1.chromeLoop ?n ?a env ?p' None ?s0 ?w0 = _ =>
          pose proof (Rev1_chromeLoop_result env p' n a None s0 w0
                        ltac:(unfold Rev1.maxRetries; discriminate)) as K
      end.
      rewrite H in K. destruct K as (_ & _ & K & _). rewrite K.
      destruct (AwaitStartSignal _); reflexivity.
    - unfold Rev2.NewWebSource, createPulseSink, launchXvfb in H.
      destruct (pactl_load env); [destruct (Close _ _); discriminate|].
      destruct (xvfb_Start env); [destruct (Close _ _); discriminate|].
      match type of H with
      | Rev2.chromeLoop ?n ?a env ?p' None ?s0 ?w0 = _ =>
          pose proof (Rev2_chromeLoop_result env p' n a None s0 w0
                        ltac:(unfold Rev2.maxRetries; discriminate)) as K
      end.
      rewrite H in K. destruct K as (_ & _ & K & _). rewrite K.
      destruct (AwaitStartSignal _); reflexivity. }
  eexists. split; [exact Hx|]. simpl. repeat split; lia.
Qed.

Lemma NewWebSource_display_range_witness :
  exists c,
    xvfb Fixtures.ungated = Some c /\
    cmdDisplay c = 10 + rand_Intn Fixtures.envOk /\
    10 <= cmdDisplay c < 2 ^ 31 - 1 /\
    cmdDims c = (Width Fixtures.cfg, Height Fixtures.cfg, Depth Fixtures.cfg).
Proof.
  apply (NewWebSource_display_range Fixtures.envOk Fixtures.cfg
           Fixtures.ungated Fixtures.firstTry).
  - vm_compute. split; [discriminate|reflexivity].
  - left. reflexivity.
Defined.

(** ** The second revision and its resources *)

Lemma Close_full (s : WebSource) (w : World) (c : Cmd) (h : handle) :
  closeChrome s = Some h -> xvfb s = Some c -> pulseSink s <> EmptyString ->
  (Close s w).2 =
  emit (SinkUnload (pulseSink s)) (emit (XvfbKilled c) (emit (ChromeCanceled h) w)).
Proof.
  intros Hc Hx Hn. destruct s as [ps x cc sr er i]. simpl in *. subst x cc.
  unfold Close. simpl. apply String.eqb_neq in Hn. rewrite Hn. reflexivity.
Qed.

(** In the second revision, when pactl prints a sink name, no browser is
    ever allocated while an earlier one is live; a failed construction
    leaves nothing live; a controller that is returned holds exactly the
    sink, the display and one browser, and [Close] on it leaves nothing
    live. *)
Theorem Rev2_NewWebSource_resources (env : Env) (p : PipelineConfig) :
  (forall out, pactl_load env = inr out -> TrimRight out newline <> EmptyString) ->
  exclusive (Rev2.NewWebSource env p).2 = true /\
  match (Rev2.NewWebSource env p).1.1 with
  | None => live (Rev2.NewWebSource env p).2 = []
  | Some s =>
      (exists c h, xvfb s = Some c /\ closeChrome s = Some h /\
         live (Rev2.NewWebSource env p).2 =
           [RSink (pulseSink s); RXvfb c; RChrome h]) /\
      live (Close s (Rev2.NewWebSource env p).2).2 = []
  end.
Proof.
  intros Hname.
  pose proof (Rev2_NewWebSource_all_or_nothing env p Hname) as H.
  destruct (Rev2.NewWebSource env p) as [[[s|] [e|]] w]; simpl;
    try contradiction.
  - destruct H as (Hn & c & h & Hx & Hc & Hl & He).
    split; [exact He|]. split; [exists c, h; repeat split; assumption|].
    rewrite (Close_full s w c h Hc Hx Hn).
    world_simpl. rewrite Hl. simpl. release_simpl. reflexivity.
  - destruct H as [Hl He]. split; assumption.
Qed.

Lemma Rev2_NewWebSource_resources_witness :
  exclusive (Rev2.NewWebSource Fixtures.envAlwaysFails Fixtures.cfg).2 = true /\
  live (Rev2.NewWebSource Fixtures.envAlwaysFails Fixtures.cfg).2 = [].
Proof.
  apply (Rev2_NewWebSource_resources Fixtures.envAlwaysFails Fixtures.cfg).
  intros out [= <-]. vm_compute. discriminate.
Defined.

(** ** What a successful attempt means *)

(** In the first revision an attempt ends without error exactly when the
    URL could be built, the navigation returned without error before its
    60s timeout, the second run returned without error, the page shows no
    error text, and all of it took less than the 45s wall-clock timeout. *)
Theorem Rev1_attempt_succeeds_iff (env : Env) (p : PipelineConfig) (a : nat) :
  Rev1.attemptError env p a = None <->
  buildUrl p (chrome env a) = None /\
  exists t t',
    navigate (chrome env a) = Returns t None /\ t < 60 * Second /\
    postNavigate (chrome env a) = Returns t' None /\
    errString (chrome env a) = EmptyString /\
    t + t' < 45 * Second.
Proof.
  unfold Rev1.attemptError, Rev1.outcome, Rev1.runChrome, withTimeout,
    Rev1.navigationTimeout, awaitChrome, chromeTimeout.
  destruct (chrome env a) as [up ne nav post es con].
  cbn [navigate postNavigate errString].
  destruct (buildUrl p _) as [g|].
  { cbn. split; [discriminate|intros [? _]; discriminate]. }
  split.
  - intros H. split; [reflexivity|].
    destruct nav as [t [err|]|]; destruct post as [t' [err'|]|];
      cbv beta iota zeta in H;
      repeat match type of H with
             | context [if ?c then _ else _] =>
                 destruct c eqn:?; cbv beta iota zeta in H
             end;
      try discriminate.
    exists t, t'.
    repeat match goal with
           | E : (_ <? _) = true |- _ => apply Z.ltb_lt in E
           | E : String.eqb _ _ = true |- _ => apply String.eqb_eq in E
           end.
    repeat split; try assumption; lia.
  - intros (_ & t & t' & -> & Ht & -> & -> & Htt).
    apply Z.ltb_lt in Ht. rewrite Ht. cbv beta iota zeta.
    rewrite String.eqb_refl.
    assert ((t + t' <? Second * 45) = true) as -> by (apply Z.ltb_lt; lia).
    reflexivity.
Qed.

(** In the second revision an attempt ends without error exactly when the
    URL could be built, network tracking was enabled, the run either
    returned without error on a page that shows no error text or returned
    an error whose message is empty, and all of it took less than the 45s
    wall-clock timeout.  An error with an empty message is taken for a
    success. *)
Theorem Rev2_attempt_succeeds_iff (env : Env) (p : PipelineConfig) (a : nat) :
  Rev2.attemptError env p a = None <->
  buildUrl p (chrome env a) = None /\
  exists t t',
    network_Enable (chrome env a) = Returns t None /\
    (navigate (chrome env a) = Returns t' None /\
     errString (chrome env a) = EmptyString \/
     exists err, navigate (chrome env a) = Returns t' (Some err) /\
                 Error err = EmptyString) /\
    t + t' < 45 * Second.
Proof.
  unfold Rev2.attemptError, Rev2.outcome, Rev2.runChrome,
    awaitChrome, chromeTimeout.
  destruct (chrome env a) as [up ne nav post es con]. simpl.
  destruct (buildUrl p _) as [g|].
  { simpl. split; [discriminate|intros [? _]; discriminate]. }
  split.
  - intros H. split; [reflexivity|].
    destruct ne as [t [err|]|]; try discriminate.
    { destruct (_ <? _); discriminate. }
    destruct nav as [t' [err|]|]; try discriminate.
    + destruct (HasPrefix (Error err) chromeFailedToStart);
        [destruct (_ <? _); discriminate|].
      destruct (String.eqb (Error err) EmptyString) eqn:Ee;
        [|destruct (_ <? _); discriminate].
      apply String.eqb_eq in Ee.
      destruct (Z.ltb_spec (t + t') (Second * 45)); [|discriminate].
      exists t, t'. split; [reflexivity|]. split; [|lia].
      right. exists err. split; [reflexivity|assumption].
    + destruct (String.eqb es EmptyString) eqn:Ees;
        [|destruct (_ <? _); discriminate].
      apply String.eqb_eq in Ees.
      destruct (Z.ltb_spec (t + t') (Second * 45)); [|discriminate].
      exists t, t'. split; [reflexivity|]. split; [|lia].
      left. split; [reflexivity|assumption].
  - intros (_ & t & t' & -> & Hnav & Htt).
    assert ((t + t' <? Second * 45) = true) as Hlt by (apply Z.ltb_lt; lia).
    destruct Hnav as [[-> ->]|(err & -> & Herr)].
    + simpl. rewrite Hlt. reflexivity.
    + rewrite Herr. simpl. rewrite Hlt. reflexivity.
Qed.

(** ** The name of the sink *)

Lemma TrimRight_newline_split (out : string) :
  let name := TrimRight out newline in
  (exists n, out = String.append name (newlines n)) /\
  lastChar name <> Some (ascii_of_nat 10).
Proof.
  induction out as [|c rest IH]; simpl.
  - split; [exists 0%nat; reflexivity|discriminate].
  - destruct IH as [[n Hn] Hlast].
    destruct (TrimRight rest newline) as [|d r] eqn:E.
    + destruct (Ascii.eqb c (ascii_of_nat 10)) eqn:Ec.
      * apply Ascii.eqb_eq in Ec. subst c. split; [|discriminate].
        exists (S n). simpl. simpl in Hn. rewrite Hn. reflexivity.
      * split.
        -- exists n. simpl. simpl in Hn. rewrite Hn. reflexivity.
        -- simpl. intros [= ->]. rewrite Ascii.eqb_refl in Ec. discriminate.
    + split.
      * exists n. simpl. rewrite Hn at 1. reflexivity.
      * exact Hlast.
Qed.

(** [createPulseSink] fails with [ErrProcessFailed("pulse", cause)] and
    leaves the controller as it is when pactl fails; otherwise it stores
    what pactl printed without its trailing newlines: the output is the
    stored name followed by newlines only, and the name does not end with
    one. *)
Theorem createPulseSink_name
    (env : Env) (p : PipelineConfig) (s : WebSource) (w : World) :
  match pactl_load env with
  | inl cause =>
      createPulseSink env p s w = (Some (ErrProcessFailed "pulse" cause), s, w)
  | inr out =>
      exists s' w',
        createPulseSink env p s w = (None, s', w') /\
        (exists n, out = String.append (pulseSink s') (newlines n)) /\
        lastChar (pulseSink s') <> Some (ascii_of_nat 10) /\
        xvfb s' = xvfb s /\ closeChrome s' = closeChrome s /\
        w' = emit (SinkLoaded (pulseSink s')) w
  end.
Proof.
  unfold createPulseSink. destruct (pactl_load env) as [cause|out].
  - reflexivity.
  - eexists _, _. split; [reflexivity|]. simpl.
    destruct (TrimRight_newline_split out) as [Hn Hl].
    repeat split; assumption.
Qed.

(** ** When the signals fire *)

Lemma chan_le_to_nil (c c' : chan) : chan_le c c' = true -> c' = ChNil -> c = ChNil.
Proof. destruct c, c'; simpl; congruence. Qed.

Section Sentinels.

Context {iface : Type}.
Variable json_Unmarshal : list byte -> option iface.
Variable fmt_Sprint : iface -> string.

Abbreviation onArg' := (onArg json_Unmarshal fmt_Sprint).
Abbreviation onArgs' := (onArgs json_Unmarshal fmt_Sprint).
Abbreviation listener' := (listener json_Unmarshal fmt_Sprint).
Abbreviation dispatch' := (dispatch json_Unmarshal fmt_Sprint).
Abbreviation printsAs' := (printsAs json_Unmarshal fmt_Sprint).
Abbreviation mentions' := (mentions json_Unmarshal fmt_Sprint).

Lemma onArg_end_fires (s : WebSource) (arg : RemoteObject) :
  printsAs' endRecordingLog arg = true -> endRecording s <> ChNil ->
  exists s', onArg' s arg = Some s' /\ endRecording s' = ChClosed.
Proof.
  unfold printsAs, printed, onArg.
  destruct (json_Unmarshal (Value arg)) as [val|]; simpl; [|discriminate].
  intros Hend Hnn.
  destruct (String.eqb (fmt_Sprint val) startRecordingLog) eqn:Hstart.
  - apply String.eqb_eq in Hstart, Hend. rewrite Hstart in Hend. discriminate.
  - rewrite Hend. destruct s as [ps x cc sr [| |] i]; simpl in *;
      try congruence; eexists; split; reflexivity.
Qed.

Lemma onArg_start_fires (s : WebSource) (arg : RemoteObject) :
  printsAs' startRecordingLog arg = true -> startRecording s <> ChNil ->
  exists s', onArg' s arg = Some s' /\ startRecording s' = ChClosed.
Proof.
  unfold printsAs, printed, onArg.
  destruct (json_Unmarshal (Value arg)) as [val|]; simpl; [|discriminate].
  intros -> Hnn. destruct s as [ps x cc [| |] er i]; simpl in *;
    try congruence; eexists; split; reflexivity.
Qed.

Lemma onArgs_end_fires (args : list RemoteObject) (s : WebSource) :
  existsb (printsAs' endRecordingLog) args = true -> endRecording s <> ChNil ->
  exists s', onArgs' s args = Some s' /\ endRecording s' = ChClosed.
Proof.
  revert s. induction args as [|arg rest IH]; intros s; simpl; [discriminate|].
  intros H Hnn. destruct (printsAs' endRecordingLog arg) eqn:Hp.
  - destruct (onArg_end_fires s arg Hp Hnn) as (s1 & E1 & C1). rewrite E1. simpl.
    destruct (onArgs_evolves json_Unmarshal fmt_Sprint rest s1) as (s2 & E2 & H2).
    exists s2. split; [assumption|].
    destruct H2 as (_&_&_&_&_&He). rewrite C1 in He. apply chan_le_closed, He.
  - simpl in H.
    destruct (onArg_evolves json_Unmarshal fmt_Sprint s arg) as (s1 & E1 & H1).
    rewrite E1. simpl. apply IH; [assumption|].
    destruct H1 as (_&_&_&_&_&He). intros Hn. apply Hnn.
    eapply chan_le_to_nil; eassumption.
Qed.

Lemma onArgs_start_fires (args : list RemoteObject) (s : WebSource) :
  existsb (printsAs' startRecordingLog) args = true -> startRecording s <> ChNil ->
  exists s', onArgs' s args = Some s' /\ startRecording s' = ChClosed.
Proof.
  revert s. induction args as [|arg rest IH]; intros s; simpl; [discriminate|].
  intros H Hnn. destruct (printsAs' startRecordingLog arg) eqn:Hp.
  - destruct (onArg_start_fires s arg Hp Hnn) as (s1 & E1 & C1). rewrite E1. simpl.
    destruct (onArgs_evolves json_Unmarshal fmt_Sprint rest s1) as (s2 & E2 & H2).
    exists s2. split; [assumption|].
    destruct H2 as (_&_&_&_&Hs&_). rewrite C1 in Hs. apply chan_le_closed, Hs.
  - simpl in H.
    destruct (onArg_evolves json_Unmarshal fmt_Sprint s arg) as (s1 & E1 & H1).
    rewrite E1. simpl. apply IH; [assumption|].
    destruct H1 as (_&_&_&_&Hs&_). intros Hn. apply Hnn.
    eapply chan_le_to_nil; eassumption.
Qed.

(** A sentinel always gets through: when the end channel exists and some
    event of the sequence carries an argument that prints as
    END_RECORDING, the end channel is closed after the sequence; the same
    holds for the start channel and START_RECORDING. *)
Theorem sentinel_closes_its_channel (s : WebSource) (evs : list TargetEvent) :
  (endRecording s <> ChNil ->
   existsb (mentions' endRecordingLog) evs = true ->
   exists s', dispatch' s evs = Some s' /\ recv_ready (EndRecording s') = true) /\
  (startRecording s <> ChNil ->
   existsb (mentions' startRecordingLog) evs = true ->
   exists s', dispatch' s evs = Some s' /\ recv_ready (StartRecording s') = true).
Proof.
  split; revert s; induction evs as [|ev rest IH]; intros s Hnn; simpl;
    try discriminate; intros H.
  - destruct (mentions' endRecordingLog ev) eqn:Hm.
    + destruct ev; simpl in Hm; try discriminate.
      destruct (onArgs_end_fires Args s Hm Hnn) as (s1 & E1 & C1).
      simpl. rewrite E1. simpl.
      destruct (dispatch_evolves json_Unmarshal fmt_Sprint rest s1) as (s2 & E2 & H2).
      exists s2. split; [assumption|]. unfold EndRecording.
      destruct H2 as (_&_&_&_&_&He). rewrite C1 in He.
      rewrite (chan_le_closed _ He). reflexivity.
    + simpl in H.
      destruct (listener_evolves json_Unmarshal fmt_Sprint s ev) as (s1 & E1 & H1).
      rewrite E1. simpl. apply IH; [|assumption].
      destruct H1 as (_&_&_&_&_&He). intros Hn. apply Hnn.
      eapply chan_le_to_nil; eassumption.
  - destruct (mentions' startRecordingLog ev) eqn:Hm.
    + destruct ev; simpl in Hm; try discriminate.
      destruct (onArgs_start_fires Args s Hm Hnn) as (s1 & E1 & C1).
      simpl. rewrite E1. simpl.
      destruct (dispatch_evolves json_Unmarshal fmt_Sprint rest s1) as (s2 & E2 & H2).
      exists s2. split; [assumption|]. unfold StartRecording.
      destruct H2 as (_&_&_&_&Hs&_). rewrite C1 in Hs.
      rewrite (chan_le_closed _ Hs). reflexivity.
    + simpl in H.
      destruct (listener_evolves json_Unmarshal fmt_Sprint s ev) as (s1 & E1 & H1).
      rewrite E1. simpl. apply IH; [|assumption].
      destruct H1 as (_&_&_&_&Hs&_). intros Hn. apply Hnn.
      eapply chan_le_to_nil; eassumption.
Qed.

Lemma onArg_other (s : WebSource) (arg : RemoteObject) :
  printsAs' startRecordingLog arg = false ->
  printsAs' endRecordingLog arg = false ->
  onArg' s arg = Some s.
Proof.
  unfold printsAs, printed, onArg.
  destruct (json_Unmarshal (Value arg)) as [val|]; simpl; [|reflexivity].
  intros -> ->. reflexivity.
Qed.

(** Nothing but a sentinel touches the controller: a sequence of events
    none of which carries an argument that prints as START_RECORDING or
    END_RECORDING (exceptions, network responses, failed loads, other
    console messages, arguments that do not decode) leaves it exactly as
    it is. *)
Theorem only_sentinels_change_the_controller
    (s : WebSource) (evs : list TargetEvent) :
  forallb (fun ev => negb (mentions' startRecordingLog ev) &&
                     negb (mentions' endRecordingLog ev)) evs = true ->
  dispatch' s evs = Some s.
Proof.
  induction evs as [|ev rest IH]; simpl; [reflexivity|].
  intros H. apply andb_true_iff in H as [Hev Hrest].
  apply andb_true_iff in Hev as [Hs He].
  apply negb_true_iff in Hs, He.
  assert (listener' s ev = Some s) as ->.
  { destruct ev; simpl in *; try reflexivity.
    induction Args as [|arg args IHa]; simpl in *; [reflexivity|].
    apply orb_false_iff in Hs as [Hs1 Hs2].
    apply orb_false_iff in He as [He1 He2].
    rewrite (onArg_other s arg Hs1 He1). simpl. apply IHa; assumption. }
  simpl. apply IH. assumption.
Qed.

End Sentinels.

(** An end sentinel after other messages closes the end channel of a
    controller that has one. *)
Lemma sentinel_closes_its_channel_witness :
  exists s',
    dispatch Fixtures.demo_Unmarshal Fixtures.demo_Sprint Fixtures.ready
      [EventExceptionThrown; Fixtures.endEvent] = Some s' /\
    recv_ready (EndRecording s') = true.
Proof.
  apply (sentinel_closes_its_channel Fixtures.demo_Unmarshal
           Fixtures.demo_Sprint Fixtures.ready
           [EventExceptionThrown; Fixtures.endEvent]).
  - discriminate.
  - reflexivity.
Defined.

(** A console message that is no sentinel, a response and an exception
    leave the controller as it is. *)
Lemma only_sentinels_change_the_controller_witness :
  dispatch Fixtures.demo_Unmarshal Fixtures.demo_Sprint Fixtures.ready
    [EventConsoleAPICalled [Fixtures.literal "hello"];
     EventResponseReceived 404; EventExceptionThrown] = Some Fixtures.ready.
Proof.
  apply (only_sentinels_change_the_controller Fixtures.demo_Unmarshal
           Fixtures.demo_Sprint Fixtures.ready).
  reflexivity.
Defined.

(** ** The console while the browser is launched *)

Lemma dispatch_end_fires {iface : Type}
    (json_Unmarshal : list byte -> option iface) (fmt_Sprint : iface -> string)
    (evs : list TargetEvent) (s : WebSource) :
  endRecording s <> ChNil ->
  existsb (mentions json_Unmarshal fmt_Sprint endRecordingLog) evs = true ->
  exists s', dispatch json_Unmarshal fmt_Sprint s evs = Some s' /\
             endRecording s' = ChClosed.
Proof.
  revert s. induction evs as [|ev rest IH]; intros s Hnn; simpl;
    try discriminate; intros H.
  destruct (mentions json_Unmarshal fmt_Sprint endRecordingLog ev) eqn:Hm.
  - destruct ev; simpl in Hm; try discriminate.
    destruct (onArgs_end_fires json_Unmarshal fmt_Sprint Args s Hm Hnn)
      as (s1 & E1 & C1).
    simpl. rewrite E1. simpl.
    destruct (dispatch_evolves json_Unmarshal fmt_Sprint rest s1) as (s2 & E2 & H2).
    exists s2. split; [assumption|].
    destruct H2 as (_&_&_&_&_&He). rewrite C1 in He.
    apply chan_le_closed. exact He.
  - simpl in H.
    destruct (listener_evolves json_Unmarshal fmt_Sprint s ev) as (s1 & E1 & H1).
    rewrite E1. simpl. apply IH; [|assumption].
    destruct H1 as (_&_&_&_&_&He). intros Hn. apply Hnn.
    eapply chan_le_to_nil; eassumption.
Qed.


Lemma listen_end_fires (sprint : list byte -> option string) (s : WebSource)
    (evs : list TargetEvent) :
  endRecording s <> ChNil -> ends sprint evs = true ->
  endRecording (listen sprint s evs) = ChClosed.
Proof.
  intros Hnn H.
  destruct (dispatch_end_fires sprint (fun val => val) evs s Hnn H)
    as (s' & E & C).
  unfold listen. rewrite E. exact C.
Qed.


(** When the page logs the end sentinel while the browser is launched,
    the controller has its end channel closed when [launchChrome] is over.
    The first revision registers the listener before anything can fail;
    the second registers it after the network tracking is enabled, and a
    browser whose tracking is not enabled in time is not listened to: the
    controller comes back with the cancel function and is otherwise as it
    was. *)
Theorem launchChrome_hears_the_end_sentinel
    (sprint : list byte -> option string) (s : WebSource) (p : PipelineConfig)
    (i : bool) (ce : ChromeEnv) (w : World) :
  buildUrl p ce = None -> endRecording s <> ChNil ->
  ends sprint (console ce) = true ->
  recv_ready (EndRecording (Rev1.launchChrome sprint s p i ce w).1.2) = true /\
  (Rev2.listening ce = true ->
   recv_ready (EndRecording (Rev2.launchChrome sprint s p i ce w).1.2) = true) /\
  (Rev2.listening ce = false ->
   (Rev2.launchChrome sprint s p i ce w).1.2 =
     set_closeChrome (Some (fresh w)) s).
Proof.
  intros Hurl Hnn He.
  unfold Rev1.launchChrome, Rev2.launchChrome, allocChrome, EndRecording.
  rewrite Hurl. cbv zeta. cbn [fst snd].
  split; [|split].
  - rewrite listen_end_fires; [reflexivity| |assumption]. exact Hnn.
  - intros ->. rewrite listen_end_fires; [reflexivity| |assumption]. exact Hnn.
  - intros ->. reflexivity.
Qed.

Lemma launchChrome_hears_the_end_sentinel_witness :
  recv_ready (EndRecording
                (Rev1.launchChrome Fixtures.demo_Unmarshal Fixtures.ungated
                   Fixtures.cfg false Fixtures2.pageEnds []).1.2) = true.
Proof.
  refine (proj1 (launchChrome_hears_the_end_sentinel Fixtures.demo_Unmarshal
                   Fixtures.ungated Fixtures.cfg false Fixtures2.pageEnds []
                   _ _ _)).
  - reflexivity.
  - vm_compute. discriminate.
  - reflexivity.
Defined.

(** Once the sink and the display are up, when the first attempt succeeds
    and the page has logged the end sentinel while it loaded,
    [NewWebSource] returns a controller whose end channel is closed
    already: a receive on [EndRecording] is ready at once.  In the second
    revision this asks for the network tracking to be enabled before the
    wall-clock timeout. *)
Theorem NewWebSource_hears_the_first_attempt
    (env : Env) (p : PipelineConfig) (out : string) :
  pactl_load env = inr out ->
  xvfb_Start env = None ->
  ends (json_Sprint env) (console (chrome env 1)) = true ->
  (Rev1.attemptError env p 1 = None ->
   exists s w,
     Rev1.NewWebSource env p = (Some s, None, w) /\
     recv_ready (EndRecording s) = true) /\
  (Rev2.attemptError env p 1 = None ->
   Rev2.listening (chrome env 1) = true ->
   exists s w,
     Rev2.NewWebSource env p = (Some s, None, w) /\
     recv_ready (EndRecording s) = true).
Proof.
  intros Hp Hx Hends. split.
  - intros Hok.
    assert (buildUrl p (chrome env 1) = None) as Hurl.
    { unfold Rev1.attemptError, Rev1.outcome in Hok.
      destruct (buildUrl p (chrome env 1)); [|reflexivity].
      rewrite awaitChrome_parse_error in Hok. discriminate. }
    assert (awaitChrome (Rev1.runChrome (chrome env 1)) = None) as Hrun.
    { unfold Rev1.attemptError, Rev1.outcome in Hok.
      rewrite Hurl in Hok. exact Hok. }
    unfold Rev1.NewWebSource, createPulseSink, launchXvfb. rewrite Hp, Hx.
    unfold Rev1.maxRetries. cbn [Rev1.chromeLoop].
    unfold Rev1.launchChrome, allocChrome.
    change (buildUrl (set_Display (10 + rand_Intn env) p) (chrome env 1))
      with (buildUrl p (chrome env 1)).
    rewrite Hurl. cbv zeta. rewrite Hrun.
    eexists _, _. split; [reflexivity|]. unfold EndRecording.
    rewrite listen_end_fires; [reflexivity| |assumption].
    destruct (AwaitStartSignal _); discriminate.
  - intros Hok Hl.
    assert (buildUrl p (chrome env 1) = None) as Hurl.
    { unfold Rev2.attemptError, Rev2.outcome in Hok.
      destruct (buildUrl p (chrome env 1)); [|reflexivity].
      rewrite awaitChrome_parse_error in Hok. discriminate. }
    assert (awaitChrome (Rev2.runChrome (chrome env 1)) = None) as Hrun.
    { unfold Rev2.attemptError, Rev2.outcome in Hok.
      rewrite Hurl in Hok. exact Hok. }
    unfold Rev2.NewWebSource, createPulseSink, launchXvfb. rewrite Hp, Hx.
    unfold Rev2.maxRetries. cbn [Rev2.chromeLoop].
    unfold Rev2.launchChrome, allocChrome.
    change (buildUrl (set_Display (10 + rand_Intn env) p) (chrome env 1))
      with (buildUrl p (chrome env 1)).
    rewrite Hurl, Hl. cbv zeta. rewrite Hrun.
    eexists _, _. split; [reflexivity|]. unfold EndRecording.
    rewrite listen_end_fires; [reflexivity| |assumption].
    destruct (AwaitStartSignal _); discriminate.
Qed.

(** The page logs the end sentinel while it loads, in the second revision. *)
Lemma NewWebSource_hears_the_first_attempt_witness :
  exists s w,
    Rev2.NewWebSource Fixtures2.envEnds Fixtures.cfg = (Some s, None, w) /\
    recv_ready (EndRecording s) = true.
Proof.
  apply (NewWebSource_hears_the_first_attempt Fixtures2.envEnds Fixtures.cfg
           (String.append "23" newline)); reflexivity.
Defined.







(** ** The browser options *)

(** Whatever the configuration, no two options of [launchChrome] set the
    same flag, in either revision, so no flag of the list is silently
    replaced by a later one. *)
Theorem browser_flags_are_distinct
    (p : PipelineConfig) (bc : Browser.BrowserConfig) (insecure : bool) :
  NoDup (Browser.flagNames (Browser.opts1 p bc insecure)) /\
  NoDup (Browser.flagNames (Browser.opts2 p bc insecure)).
Proof.
  split; destruct insecure;
    refine (bool_decide_unpack _ _); vm_compute; exact I.
Qed.

(** The browser runs without its sandbox exactly when the configuration
    does not enable it, and web security is switched off and insecure
    content allowed exactly when [insecure] is set; the sink of the
    browser is named after the egress.  This holds in both revisions. *)
Theorem browser_security_flags
    (p : PipelineConfig) (bc : Browser.BrowserConfig) (insecure : bool)
    (opts : list Browser.ExecAllocatorOption) :
  opts = Browser.opts1 p bc insecure \/ opts = Browser.opts2 p bc insecure ->
  Browser.flagValue "no-sandbox" opts =
    Some (Browser.FlagBool (negb (Browser.EnableChromeSandbox bc))) /\
  Browser.flagValue "disable-web-security" opts =
    (if insecure then Some (Browser.FlagBool true) else None) /\
  Browser.flagValue "allow-running-insecure-content" opts =
    (if insecure then Some (Browser.FlagBool true) else None) /\
  Browser.Env (String.append "PULSE_SINK=" (EgressId (Info p))) ∈ opts.
Proof.
  intros [-> | ->]; destruct insecure;
    (repeat split; [reflexivity..|]);
    unfold Browser.opts1, Browser.opts2, Browser.customOpts;
    rewrite !elem_of_app, !elem_of_cons; tauto.
Qed.

Lemma browser_security_flags_witness :
  Browser.flagValue "no-sandbox"
    (Browser.opts2 Fixtures.cfg Fixtures2.browserCfg false) =
    Some (Browser.FlagBool true) /\
  Browser.flagValue "disable-web-security"
    (Browser.opts2 Fixtures.cfg Fixtures2.browserCfg false) = None.
Proof.
  destruct (browser_security_flags Fixtures.cfg Fixtures2.browserCfg false
              (Browser.opts2 Fixtures.cfg Fixtures2.browserCfg false)
              (or_intror eq_refl)) as (H1 & H2 & _).
  split; [exact H1|exact H2].
Defined.

(** The browser is bound to the display that [launchXvfb] started and its
    window has the width and the height of that screen, at position 0,0:
    the options of both revisions name the display of the Xvfb command and
    its dimensions. *)
Theorem browser_window_covers_the_display
    (env : Env) (p : PipelineConfig) (bc : Browser.BrowserConfig)
    (insecure : bool) (s s' : WebSource) (w w' : World)
    (opts : list Browser.ExecAllocatorOption) :
  launchXvfb env p s w = (None, s', w') ->
  opts = Browser.opts1 p bc insecure \/ opts = Browser.opts2 p bc insecure ->
  exists c,
    xvfb s' = Some c /\
    Browser.flagValue "display" opts =
      Some (Browser.FlagString
              (String.append ":" (Browser.decimal (cmdDisplay c)))) /\
    Browser.flagValue "window-size" opts =
      Some (Browser.FlagString
              (String.append (Browser.decimal (cmdDims c).1.1)
                 (String.append "," (Browser.decimal (cmdDims c).1.2)))) /\
    Browser.flagValue "window-position" opts = Some (Browser.FlagString "0,0").
Proof.
  unfold launchXvfb. destruct (xvfb_Start env); [discriminate|].
  intros [= <- <-] [-> | ->]; eexists; (split; [reflexivity|]);
    destruct insecure; repeat split; reflexivity.
Qed.

Lemma browser_window_covers_the_display_witness :
  exists c,
    xvfb (set_xvfb (Some Fixtures.display99) Fixtures.ready) = Some c /\
    Browser.flagValue "display"
      (Browser.opts1 (set_Display 99 Fixtures.cfg) Fixtures2.browserCfg false) =
      Some (Browser.FlagString
              (String.append ":" (Browser.decimal (cmdDisplay c)))) /\
    Browser.flagValue "window-size"
      (Browser.opts1 (set_Display 99 Fixtures.cfg) Fixtures2.browserCfg false) =
      Some (Browser.FlagString
              (String.append (Browser.decimal (cmdDims c).1.1)
                 (String.append "," (Browser.decimal (cmdDims c).1.2)))) /\
    Browser.flagValue "window-position"
      (Browser.opts1 (set_Display 99 Fixtures.cfg) Fixtures2.browserCfg false) =
      Some (Browser.FlagString "0,0").
Proof.
  apply (browser_window_covers_the_display Fixtures.envOk
           (set_Display 99 Fixtures.cfg) Fixtures2.browserCfg false
           Fixtures.ready _ [] _ _ eq_refl (or_introl eq_refl)).
Defined.

(** ** The target URL *)

(** With a [WebUrl] in the configuration [launchChrome] navigates to it
    as it is and never parses [BaseUrl].  Without one, it fails with the
    error of [url.Parse], or navigates to the base URL whose query has
    exactly one value for each of layout, url and token, those of the
    configuration, and keeps every other parameter of the base URL. *)
Theorem webUrl_query
    (url_Parse : string -> goerror + Browser.URL)
    (URL_Query : Browser.URL -> Browser.Values)
    (Values_Encode : Browser.Values -> string)
    (URL_String : Browser.URL -> string)
    (p : PipelineConfig) (bc : Browser.BrowserConfig) :
  let target := Browser.webUrl url_Parse URL_Query Values_Encode URL_String p bc in
  (WebUrl p <> EmptyString -> target = inr (WebUrl p)) /\
  (WebUrl p = EmptyString ->
   match url_Parse (BaseUrl p) with
   | inl err => target = inl err
   | inr u =>
       exists values : Browser.Values,
         target =
           inr (URL_String (Browser.set_RawQuery (Values_Encode values) u)) /\
         values !! "layout" = Some [Browser.Layout bc] /\
         values !! "url" = Some [Browser.WsUrl bc] /\
         values !! "token" = Some [Browser.Token bc] /\
         forall key : string,
           key <> "layout" -> key <> "url" -> key <> "token" ->
           values !! key = URL_Query u !! key
   end).
Proof.
  intros target. subst target. unfold Browser.webUrl. split.
  - intros H. apply String.eqb_neq in H. rewrite H. reflexivity.
  - intros ->. simpl. destruct (url_Parse (BaseUrl p)) as [err|u]; [reflexivity|].
    exists (Browser.inputValues URL_Query bc u). split; [reflexivity|].
    unfold Browser.inputValues, Browser.Values_Set.
    repeat split.
    + rewrite lookup_insert_ne by discriminate.
      rewrite lookup_insert_ne by discriminate.
      apply lookup_insert_eq.
    + rewrite lookup_insert_ne by discriminate. apply lookup_insert_eq.
    + apply lookup_insert_eq.
    + intros key H1 H2 H3.
      rewrite !lookup_insert_ne by congruence. reflexivity.
Qed.

Lemma webUrl_query_witness :
  exists values : Browser.Values,
    Browser.webUrl Fixtures2.demo_Parse Fixtures2.demo_Query
      Fixtures2.demo_Encode Fixtures2.demo_String
      Fixtures2.cfgTemplate Fixtures2.browserCfg =
      inr (Fixtures2.demo_String
             (Browser.set_RawQuery (Fixtures2.demo_Encode values)
                {| Browser.urlRest := BaseUrl Fixtures2.cfgTemplate;
                   Browser.RawQuery := EmptyString |})) /\
    values !! "token" = Some ["secret"] /\
    values !! "debug" = Some ["1"].
Proof.
  destruct (webUrl_query Fixtures2.demo_Parse Fixtures2.demo_Query
              Fixtures2.demo_Encode Fixtures2.demo_String
              Fixtures2.cfgTemplate Fixtures2.browserCfg) as [_ H].
  destruct (H eq_refl) as (values & E & _ & _ & Ht & Hrest).
  exists values. split; [exact E|]. split; [exact Ht|].
  rewrite Hrest by discriminate. reflexivity.
Defined.

(** * Further properties of uploader.go *)

(** ** Names and files *)

Lemma aliased_false (F : Faults) (k name : string) :
  aliased F k name = false -> k <> name /\ sameFile F k name = false.
Proof.
  unfold aliased. intros H. apply orb_false_iff in H as [He Hs].
  apply String.eqb_neq in He. split; assumption.
Qed.

Lemma removedWith_false (F : Faults) (name k : string) :
  removedWith F name k = false -> k <> name /\ goneWith F name k = false.
Proof.
  unfold removedWith. intros H. apply orb_false_iff in H as [He Hs].
  apply String.eqb_neq in He. split; assumption.
Qed.

Lemma writeFile_same (F : Faults) (name : string) (c : list byte)
    (m : gmap string (list byte)) :
  writeFile F name c m !! name = Some c.
Proof. unfold writeFile. apply lookup_insert_eq. Qed.

Lemma writeFile_other (F : Faults) (name q : string) (c : list byte)
    (m : gmap string (list byte)) :
  q <> name ->
  writeFile F name c m !! q =
  (fun v => if sameFile F q name then c else v) <$> m !! q.
Proof.
  intros Hq. unfold writeFile. rewrite lookup_insert_ne by congruence.
  rewrite map_lookup_imap. destruct (m !! q); reflexivity.
Qed.

Lemma writeFile_frame (F : Faults) (name q : string) (c : list byte)
    (m : gmap string (list byte)) :
  aliased F q name = false -> writeFile F name c m !! q = m !! q.
Proof.
  intros H. apply aliased_false in H as [Hq Hs].
  rewrite writeFile_other by assumption. rewrite Hs.
  destruct (m !! q); reflexivity.
Qed.

Lemma writeFile_aliased (F : Faults) (name q : string) (c v : list byte)
    (m : gmap string (list byte)) :
  aliased F q name = true -> m !! q = Some v ->
  writeFile F name c m !! q = Some c.
Proof.
  intros H Hv. destruct (decide (q = name)) as [->|Hq].
  - apply writeFile_same.
  - rewrite writeFile_other by assumption. rewrite Hv. simpl.
    unfold aliased in H. apply String.eqb_neq in Hq. rewrite Hq in H.
    simpl in H. rewrite H. reflexivity.
Qed.

Lemma unlink_same (F : Faults) (name : string) (m : gmap string (list byte)) :
  unlink F name m !! name = None.
Proof. unfold unlink. apply lookup_delete_eq. Qed.

Lemma unlink_frame (F : Faults) (name q : string) (m : gmap string (list byte)) :
  removedWith F name q = false -> unlink F name m !! q = m !! q.
Proof.
  intros H. apply removedWith_false in H as [Hq Hg].
  unfold unlink. rewrite lookup_delete_ne by congruence.
  rewrite map_lookup_imap. destruct (m !! q); simpl; [rewrite Hg|]; reflexivity.
Qed.

Lemma unlink_Some (F : Faults) (name q : string) (c : list byte)
    (m : gmap string (list byte)) :
  unlink F name m !! q = Some c -> m !! q = Some c.
Proof.
  unfold unlink. destruct (decide (q = name)) as [->|Hq].
  - rewrite lookup_delete_eq. discriminate.
  - rewrite lookup_delete_ne by congruence. rewrite map_lookup_imap.
    destruct (m !! q) as [v|]; simpl; [|discriminate].
    destruct (goneWith F name q); [discriminate|]. intros H. exact H.
Qed.

(** ** copyFile *)

Lemma copyFile_frame (F : Faults) (src dst q : string) (w : UWorld) :
  aliased F q dst = false -> files (copyFile F src dst w).2 !! q = files w !! q.
Proof.
  intros Hq. unfold copyFile, os_Open, os_Create, io_Copy. simpl.
  destruct (open_err F src); [reflexivity|].
  destruct (files w !! src); [|reflexivity].
  destruct (create_err F dst); [reflexivity|]. simpl.
  destruct (copy_err F src); simpl;
    rewrite ?writeFile_frame by assumption; reflexivity.
Qed.

(** [copyFile] succeeds when the source exists, does not name the file
    that the destination names, and no call fails; the destination then
    reads as the source did, the source still does, and no path that names
    another file than the destination has changed. *)
Theorem copyFile_copies
    (F : Faults) (src dst : string) (w : UWorld) (content : list byte) :
  aliased F src dst = false ->
  files w !! src = Some content ->
  open_err F src = None -> create_err F dst = None -> copy_err F src = None ->
  (copyFile F src dst w).1 = None /\
  files (copyFile F src dst w).2 !! dst = Some content /\
  files (copyFile F src dst w).2 !! src = Some content /\
  forall q, aliased F q dst = false ->
            files (copyFile F src dst w).2 !! q = files w !! q.
Proof.
  intros Hne Hsrc Ho Hc Hcp.
  split; [|split; [|split]].
  - unfold copyFile, os_Open, os_Create, io_Copy. simpl.
    rewrite Ho, Hsrc, Hc. simpl. rewrite Hcp. reflexivity.
  - unfold copyFile, os_Open, os_Create, io_Copy. simpl.
    rewrite Ho, Hsrc, Hc. simpl. rewrite Hcp. simpl.
    rewrite writeFile_same. rewrite writeFile_frame by assumption.
    rewrite Hsrc. reflexivity.
  - rewrite copyFile_frame by assumption. assumption.
  - intros q Hq. apply copyFile_frame. assumption.
Qed.

Lemma copyFile_copies_witness :
  (copyFile Fixtures.noFaults "/tmp/a.mp4" "/out/recordings/a.mp4"
     Fixtures.disk).1 = None /\
  files (copyFile Fixtures.noFaults "/tmp/a.mp4" "/out/recordings/a.mp4"
           Fixtures.disk).2 !! "/out/recordings/a.mp4" =
    Some [x01; x02; x03]%byte.
Proof.
  destruct (copyFile_copies Fixtures.noFaults "/tmp/a.mp4"
              "/out/recordings/a.mp4" Fixtures.disk [x01; x02; x03]%byte)
    as (H1 & H2 & _); try reflexivity.
  split; [exact H1|exact H2].
Defined.

(** Copying a file onto itself loses it: [os.Create] truncates the file
    before [io.Copy] reads it, so [copyFile] reports success and the file
    is left empty. *)
Theorem copyFile_onto_itself_truncates
    (F : Faults) (name : string) (w : UWorld) (content : list byte) :
  files w !! name = Some content ->
  open_err F name = None -> create_err F name = None -> copy_err F name = None ->
  (copyFile F name name w).1 = None /\
  files (copyFile F name name w).2 !! name = Some [].
Proof.
  intros Hsrc Ho Hc Hcp.
  unfold copyFile, os_Open, os_Create, io_Copy. simpl.
  rewrite Ho, Hsrc, Hc. simpl. rewrite Hcp. simpl.
  split; [reflexivity|].
  rewrite !writeFile_same. reflexivity.
Qed.

Lemma copyFile_onto_itself_truncates_witness :
  (copyFile Fixtures.noFaults "/tmp/a.mp4" "/tmp/a.mp4" Fixtures.disk).1 = None /\
  files (copyFile Fixtures.noFaults "/tmp/a.mp4" "/tmp/a.mp4" Fixtures.disk).2
    !! "/tmp/a.mp4" = Some [].
Proof.
  apply (copyFile_onto_itself_truncates Fixtures.noFaults "/tmp/a.mp4"
           Fixtures.disk [x01; x02; x03]%byte); reflexivity.
Defined.

(** When the source does not exist, [copyFile] fails before it creates
    the destination: the file system is unchanged, and the error is the
    one of [os.Open]. *)
Theorem copyFile_missing_source
    (F : Faults) (src dst : string) (w : UWorld) :
  files w !! src = None ->
  (copyFile F src dst w).1 = Some (default ErrNotExist (open_err F src)) /\
  files (copyFile F src dst w).2 = files w.
Proof.
  intros Hsrc. unfold copyFile, os_Open. simpl. rewrite Hsrc.
  destruct (open_err F src); split; reflexivity.
Qed.

Lemma copyFile_missing_source_witness :
  (copyFile Fixtures.noFaults "/tmp/b.mp4" "/out/recordings/b.mp4"
     Fixtures.disk).1 = Some ErrNotExist /\
  files (copyFile Fixtures.noFaults "/tmp/b.mp4" "/out/recordings/b.mp4"
           Fixtures.disk).2 = files Fixtures.disk.
Proof.
  apply (copyFile_missing_source Fixtures.noFaults "/tmp/b.mp4"
           "/out/recordings/b.mp4" Fixtures.disk).
  reflexivity.
Defined.

(** ** Upload *)

Lemma os_Stat_files (F : Faults) (name : string) (w : UWorld) :
  files (os_Stat F name w).2 = files w.
Proof.
  unfold os_Stat. destruct (stat_err F name); [reflexivity|].
  destruct (files w !! name); reflexivity.
Qed.

Lemma os_Remove_frame (F : Faults) (name q : string) (w : UWorld) :
  removedWith F name q = false ->
  files (os_Remove F name w).2 !! q = files w !! q.
Proof.
  intros Hq. unfold os_Remove. destruct (remove_err F name); [reflexivity|].
  destruct (files w !! name); [|reflexivity]. simpl.
  apply unlink_frame. assumption.
Qed.

Section UploadFacts.

Variable path_Join : string -> string -> string.
Variable path_Dir : string -> string.
Variable F : Faults.

Abbreviation Upload' := (remoteUploader_Upload path_Join path_Dir F).

(** [remoteUploader.Upload] touches two files at most: whatever happens,
    a path that does not name the output file reads as before, provided
    that [deleteAfterUpload] is not set or that the path still names its
    file when the local file is removed.  In particular the local file is
    as it was when it is not the output file and [deleteAfterUpload] is
    not set. *)
Theorem Upload_touches_two_files
    (u : remoteUploader) (localFilepath storageFilepath outputType : string)
    (deleteAfterUpload : bool) (fileType : string) (w : UWorld) (q : string) :
  let out := path_Join outDir storageFilepath in
  let w' := (Upload' u localFilepath storageFilepath outputType
               deleteAfterUpload fileType w).2 in
  aliased F q out = false ->
  removedWith F localFilepath q = false \/ deleteAfterUpload = false ->
  files w' !! q = files w !! q.
Proof.
  intros out w' Hout Hloc. subst w'. unfold remoteUploader_Upload. fold out.
  unfold os_MkdirAll.
  destruct (mkdirAll_err F (path_Dir out)); [reflexivity|].
  pose proof (copyFile_frame F localFilepath out q
                (record (OpMkdirAll (path_Dir out)) w) Hout) as Hcp.
  destruct (copyFile F localFilepath out _) as [[e|] w1]; simpl in Hcp;
    [exact Hcp|].
  pose proof (os_Stat_files F out w1) as Hst.
  destruct (os_Stat F out w1) as [[e|size] w2]; simpl in Hst;
    [simpl; rewrite Hst; exact Hcp|].
  destruct deleteAfterUpload; [|simpl; rewrite Hst; exact Hcp].
  destruct Hloc as [Hloc|Hloc]; [|discriminate].
  pose proof (os_Remove_frame F localFilepath q w2 Hloc) as Hrm.
  destruct (os_Remove F localFilepath w2) as [[e|] w3]; simpl in *;
    rewrite Hrm, Hst; exact Hcp.
Qed.

(** What [remoteUploader.Upload] returns has one of two shapes: an error
    with the empty path and the size 0, or no error with the path of the
    output file under [/out/recordings] and a size that is not negative. *)
Theorem Upload_result_shape
    (u : remoteUploader) (localFilepath storageFilepath outputType : string)
    (deleteAfterUpload : bool) (fileType : string) (w : UWorld) :
  match (Upload' u localFilepath storageFilepath outputType
           deleteAfterUpload fileType w).1 with
  | (name, size, Some _) => name = EmptyString /\ size = 0
  | (name, size, None) =>
      name = path_Join outDir storageFilepath /\ 0 <= size
  end.
Proof.
  unfold remoteUploader_Upload, os_MkdirAll.
  destruct (mkdirAll_err F _); [split; reflexivity|].
  destruct (copyFile F localFilepath _ _) as [[e|] w1]; [split; reflexivity|].
  unfold os_Stat.
  destruct (stat_err F _); [split; reflexivity|].
  destruct (files w1 !! _); [|split; reflexivity].
  simpl. split; [reflexivity|lia].
Qed.

(** A successful upload moves or copies the recording: when the local
    file exists, does not name the file that the output path names, and no
    call fails, [Upload] returns the output path and the length of the
    recording; afterwards the output path reads as the recording, and the
    local path is gone when [deleteAfterUpload] is set (the output path
    not being one that goes with it) and still reads as the recording when
    it is not. *)
Theorem Upload_moves_or_copies
    (u : remoteUploader) (localFilepath storageFilepath outputType : string)
    (deleteAfterUpload : bool) (fileType : string) (w : UWorld)
    (content : list byte) :
  let out := path_Join outDir storageFilepath in
  let r := Upload' u localFilepath storageFilepath outputType
             deleteAfterUpload fileType w in
  aliased F localFilepath out = false ->
  removedWith F localFilepath out = false ->
  files w !! localFilepath = Some content ->
  mkdirAll_err F (path_Dir out) = None ->
  open_err F localFilepath = None -> create_err F out = None ->
  copy_err F localFilepath = None -> stat_err F out = None ->
  remove_err F localFilepath = None ->
  r.1 = (out, Z.of_nat (length content), None) /\
  files r.2 !! out = Some content /\
  files r.2 !! localFilepath =
    (if deleteAfterUpload then None else Some content).
Proof.
  intros out r Hne Hgone Hsrc Hmk Ho Hc Hcp Hst Hrm. subst r.
  unfold remoteUploader_Upload. fold out.
  unfold os_MkdirAll. rewrite Hmk.
  unfold copyFile, os_Open, os_Create, io_Copy. simpl.
  rewrite Ho, Hsrc, Hc. simpl. rewrite Hcp. simpl.
  rewrite (writeFile_frame F out localFilepath) by assumption.
  rewrite Hsrc. simpl.
  unfold os_Stat. rewrite Hst. simpl. rewrite writeFile_same.
  destruct deleteAfterUpload.
  - unfold os_Remove. rewrite Hrm. simpl.
    rewrite !(writeFile_frame F out localFilepath) by assumption.
    rewrite Hsrc. simpl.
    split; [reflexivity|]. split.
    + rewrite unlink_frame by assumption. apply writeFile_same.
    + apply unlink_same.
  - simpl. split; [reflexivity|]. split.
    + apply writeFile_same.
    + rewrite !(writeFile_frame F out localFilepath) by assumption.
      exact Hsrc.
Qed.

(** A recording that lies at the output path already is lost: when
    [path.Join("/out/recordings", storageFilepath)] is the local file and
    no call fails, [Upload] reports success with the size 0; the file is
    left empty, and removed when [deleteAfterUpload] is set. *)
Theorem Upload_in_place_loses_the_recording
    (u : remoteUploader) (localFilepath storageFilepath outputType : string)
    (deleteAfterUpload : bool) (fileType : string) (w : UWorld)
    (content : list byte) :
  let r := Upload' u localFilepath storageFilepath outputType
             deleteAfterUpload fileType w in
  path_Join outDir storageFilepath = localFilepath ->
  files w !! localFilepath = Some content ->
  mkdirAll_err F (path_Dir localFilepath) = None ->
  open_err F localFilepath = None -> create_err F localFilepath = None ->
  copy_err F localFilepath = None -> stat_err F localFilepath = None ->
  remove_err F localFilepath = None ->
  r.1 = (localFilepath, 0, None) /\
  files r.2 !! localFilepath = (if deleteAfterUpload then None else Some []).
Proof.
  intros r Hout Hsrc Hmk Ho Hc Hcp Hst Hrm. subst r.
  unfold remoteUploader_Upload. rewrite Hout.
  unfold os_MkdirAll. rewrite Hmk.
  unfold copyFile, os_Open, os_Create, io_Copy. simpl.
  rewrite Ho, Hsrc, Hc. simpl. rewrite Hcp. simpl.
  rewrite writeFile_same. simpl.
  unfold os_Stat. rewrite Hst. simpl. rewrite writeFile_same.
  destruct deleteAfterUpload.
  - unfold os_Remove. rewrite Hrm. simpl. rewrite writeFile_same. simpl.
    split; [reflexivity|]. apply unlink_same.
  - simpl. split; [reflexivity|]. apply writeFile_same.
Qed.

(** A recording that is reached through another name of the output file
    is lost as well: when the local path names the file that
    [path.Join("/out/recordings", storageFilepath)] names (the same path,
    another spelling of it such as [/out/recordings/./a.mp4], a link) and
    no call fails, [os.Create] truncates the recording before it is read;
    [Upload] reports success with the size 0, and afterwards neither path
    reads as anything but an empty file. *)
Theorem Upload_through_an_alias_loses_the_recording
    (u : remoteUploader) (localFilepath storageFilepath outputType : string)
    (deleteAfterUpload : bool) (fileType : string) (w : UWorld)
    (content : list byte) :
  let out := path_Join outDir storageFilepath in
  let r := Upload' u localFilepath storageFilepath outputType
             deleteAfterUpload fileType w in
  aliased F localFilepath out = true ->
  files w !! localFilepath = Some content ->
  mkdirAll_err F (path_Dir out) = None ->
  open_err F localFilepath = None -> create_err F out = None ->
  copy_err F localFilepath = None -> stat_err F out = None ->
  remove_err F localFilepath = None ->
  r.1 = (out, 0, None) /\
  (forall c, files r.2 !! out = Some c -> c = []) /\
  (forall c, files r.2 !! localFilepath = Some c -> c = []).
Proof.
  intros out r Hal Hsrc Hmk Ho Hc Hcp Hst Hrm. subst r.
  unfold remoteUploader_Upload. fold out.
  unfold os_MkdirAll. rewrite Hmk.
  unfold copyFile, os_Open, os_Create, io_Copy. simpl.
  rewrite Ho, Hsrc, Hc. simpl. rewrite Hcp. simpl.
  rewrite (writeFile_aliased F out localFilepath [] content) by assumption.
  simpl.
  unfold os_Stat. rewrite Hst. simpl. rewrite writeFile_same.
  assert (writeFile F out [] (writeFile F out [] (files w)) !! localFilepath
          = Some []) as Hloc.
  { eapply writeFile_aliased; [assumption|].
    eapply writeFile_aliased; eassumption. }
  destruct deleteAfterUpload.
  - unfold os_Remove. rewrite Hrm. simpl. rewrite Hloc. simpl.
    split; [reflexivity|].
    split; intros c Hc'; apply unlink_Some in Hc';
      rewrite ?writeFile_same, ?Hloc in Hc'; congruence.
  - simpl. split; [reflexivity|]. split; intros c Hc'.
    + rewrite writeFile_same in Hc'. congruence.
    + rewrite Hloc in Hc'. congruence.
Qed.

(** [localUploader.Upload] only measures the local file: it never
    changes the file system, so the local file stays even when
    [deleteAfterUpload] is set; it returns the local path and the length of
    the file, or the error of [os.Stat] with the empty path and the size
    0. *)
Theorem localUploader_Upload_only_stats
    (u : localUploader) (localFilepath storageFilepath outputType : string)
    (deleteAfterUpload : bool) (fileType : string) (w : UWorld) :
  let r := localUploader_Upload F u localFilepath storageFilepath outputType
             deleteAfterUpload fileType w in
  files r.2 = files w /\
  r.1 = match stat_err F localFilepath, files w !! localFilepath with
        | Some err, _ => (EmptyString, 0, Some err)
        | None, Some content =>
            (localFilepath, Z.of_nat (length content), None)
        | None, None => (EmptyString, 0, Some ErrNotExist)
        end.
Proof.
  unfold localUploader_Upload, os_Stat.
  destruct (stat_err F localFilepath); [split; reflexivity|].
  destruct (files w !! localFilepath); split; reflexivity.
Qed.

End UploadFacts.

Lemma Upload_touches_two_files_witness :
  files (remoteUploader_Upload Fixtures.join Fixtures.dirOf Fixtures.noFaults
           Fixtures.s3Uploader "/tmp/a.mp4" "a.mp4" "mp4" false "video/mp4"
           Fixtures.disk).2 !! "/tmp/a.mp4" =
  files Fixtures.disk !! "/tmp/a.mp4".
Proof.
  apply (Upload_touches_two_files Fixtures.join Fixtures.dirOf
           Fixtures.noFaults Fixtures.s3Uploader "/tmp/a.mp4" "a.mp4" "mp4"
           false "video/mp4" Fixtures.disk "/tmp/a.mp4").
  - reflexivity.
  - right. reflexivity.
Defined.

Lemma Upload_moves_or_copies_witness :
  (remoteUploader_Upload Fixtures.join Fixtures.dirOf Fixtures.noFaults
     Fixtures.s3Uploader "/tmp/a.mp4" "a.mp4" "mp4" true "video/mp4"
     Fixtures.disk).1 = ("/out/recordings/a.mp4", 3, None) /\
  files (remoteUploader_Upload Fixtures.join Fixtures.dirOf Fixtures.noFaults
           Fixtures.s3Uploader "/tmp/a.mp4" "a.mp4" "mp4" true "video/mp4"
           Fixtures.disk).2 !! "/out/recordings/a.mp4" =
    Some [x01; x02; x03]%byte /\
  files (remoteUploader_Upload Fixtures.join Fixtures.dirOf Fixtures.noFaults
           Fixtures.s3Uploader "/tmp/a.mp4" "a.mp4" "mp4" true "video/mp4"
           Fixtures.disk).2 !! "/tmp/a.mp4" = None.
Proof.
  apply (Upload_moves_or_copies Fixtures.join Fixtures.dirOf Fixtures.noFaults
           Fixtures.s3Uploader "/tmp/a.mp4" "a.mp4" "mp4" true "video/mp4"
           Fixtures.disk [x01; x02; x03]%byte); reflexivity.
Defined.

Lemma Upload_in_place_loses_the_recording_witness :
  (remoteUploader_Upload Fixtures.join Fixtures.dirOf Fixtures.noFaults
     Fixtures.s3Uploader "/out/recordings/a.mp4" "a.mp4" "mp4" true
     "video/mp4" Fixtures2.diskInPlace).1 = ("/out/recordings/a.mp4", 0, None) /\
  files (remoteUploader_Upload Fixtures.join Fixtures.dirOf Fixtures.noFaults
           Fixtures.s3Uploader "/out/recordings/a.mp4" "a.mp4" "mp4" true
           "video/mp4" Fixtures2.diskInPlace).2 !! "/out/recordings/a.mp4" = None.
Proof.
  apply (Upload_in_place_loses_the_recording Fixtures.join Fixtures.dirOf
           Fixtures.noFaults Fixtures.s3Uploader "/out/recordings/a.mp4"
           "a.mp4" "mp4" true "video/mp4" Fixtures2.diskInPlace
           [x01; x02; x03]%byte); reflexivity.
Defined.

(** The recording is passed as [/out/recordings/./a.mp4], a spelling of
    the output path that [path.Join] cleans away. *)
Lemma Upload_through_an_alias_loses_the_recording_witness :
  (remoteUploader_Upload Fixtures.join Fixtures.dirOf Fixtures2.dotted
     Fixtures.s3Uploader "/out/recordings/./a.mp4" "a.mp4" "mp4" false
     "video/mp4" Fixtures2.diskDotted).1 = ("/out/recordings/a.mp4", 0, None).
Proof.
  apply (Upload_through_an_alias_loses_the_recording Fixtures.join
           Fixtures.dirOf Fixtures2.dotted Fixtures.s3Uploader
           "/out/recordings/./a.mp4" "a.mp4" "mp4" false "video/mp4"
           Fixtures2.diskDotted [x01; x02; x03]%byte); reflexivity.
Defined.

(** * Further properties of Close *)

(** After [Close] the controller holds neither a browser nor a display,
    and its channels, its sink name and its info are as before; a second
    [Close] leaves the controller as the first one left it and neither
    cancels a browser nor kills a display again. *)
Theorem Close_clears_browser_and_display (s : WebSource) (w w' : World) :
  closeChrome (Close s w).1 = None /\ xvfb (Close s w).1 = None /\
  pulseSink (Close s w).1 = pulseSink s /\ info (Close s w).1 = info s /\
  startRecording (Close s w).1 = startRecording s /\
  endRecording (Close s w).1 = endRecording s /\
  (Close (Close s w).1 w').1 = (Close s w).1 /\
  count isCancel (Close (Close s w).1 w').2 = count isCancel w' /\
  count isKill (Close (Close s w).1 w').2 = count isKill w'.
Proof.
  rewrite !Close_fields. simpl. repeat split.
  all: unfold Close; simpl;
    destruct (String.eqb (pulseSink s) EmptyString); simpl;
    world_simpl; simpl; lia.
Qed.

(** The local uploader on a disk that holds the recording, asked to delete
    it after the upload. *)
Lemma localUploader_Upload_only_stats_witness :
  files (localUploader_Upload Fixtures.noFaults Build_localUploader
           "/tmp/a.mp4" "a.mp4" "mp4" true "video/mp4" Fixtures.disk).2 =
    files Fixtures.disk /\
  (localUploader_Upload Fixtures.noFaults Build_localUploader
     "/tmp/a.mp4" "a.mp4" "mp4" true "video/mp4" Fixtures.disk).1 =
    ("/tmp/a.mp4", 3, None).
Proof.
  apply (localUploader_Upload_only_stats Fixtures.noFaults Build_localUploader
           "/tmp/a.mp4" "a.mp4" "mp4" true "video/mp4" Fixtures.disk).
Defined.
